(** * beetmoverscript: the manifest-driven copy orchestrator

    A shallow embedding of [src/beetmoverscript/script.py] and the
    properties of its behaviour.

    The script is asynchronous Python, but every [await] is sequential: the
    embedding is a state-and-exception monad over a [World] that holds the
    object store (the dicts the script aliases and mutates), the state of the
    [mimetypes] module and the trace of calls made to outside collaborators
    (scriptworker, boto3, the network). *)

From Stdlib Require Import ZArith Ascii String List Lia.
From stdpp Require Import base list strings.
Import ListNotations.

Local Open Scope string_scope.
Local Open Scope list_scope.

(** ** Python values, exceptions *)

(** The JSON-shaped values found in the configuration and the task. *)
#[local] Set Warnings "-register-all".
Inductive pyval :=
| PNone
| PStr (s : string)
| PInt (z : Z)
| PList (xs : list pyval)
| PDict (d : list (string * pyval)).
#[local] Set Warnings "+register-all".

(** A dict, in iteration order. *)
Definition dict := list (string * pyval).

(** [ScriptWorkerTaskException] carries its [exit_code]; the constructor
    stands for the class and its subclasses, which [except
    ScriptWorkerTaskException] catches alike.  [SystemExit] is what
    [sys.exit] raises; it is not an [Exception]. *)
Inductive exn :=
| ScriptWorkerTaskException (exit_code : Z)
| ScriptWorkerRetryException
| KeyError (key : string)
| TypeError
| SystemExit (code : Z)
| OtherError (msg : string).

Definition is_Exception (e : exn) : bool :=
  match e with
  | SystemExit _ => false
  | _ => true
  end.

Inductive result (A : Type) :=
| Return (a : A)
| Raise (e : exn).
Arguments Return {A} a.
Arguments Raise {A} e.

Definition is_raise {A} (r : result A) : bool :=
  match r with Raise _ => true | Return _ => false end.

(** ** Strings and paths *)

Definition startswith (prefix s : string) : bool := String.prefix prefix s.

Fixpoint endswith_sep (s : string) : bool :=
  match s with
  | EmptyString => false
  | String c EmptyString => Ascii.eqb c "/"%char
  | String _ rest => endswith_sep rest
  end.

(** [os.path.join(a, b)] of posixpath, for two components: an absolute [b]
    replaces the path built so far; otherwise [b] is appended, with a
    separator unless [a] is empty or already ends with one. *)
Definition os_path_join (a b : string) : string :=
  if startswith "/" b then b
  else if (String.eqb a "" || endswith_sep a)%bool then a ++ b
  else a ++ "/" ++ b.

(** ** Dicts *)

Fixpoint dict_get {V} (d : list (string * V)) (k : string) : option V :=
  match d with
  | [] => None
  | (k', v) :: rest => if String.eqb k' k then Some v else dict_get rest k
  end.

Definition keys {V} (d : list (string * V)) : list string := map fst d.

(** [d[k]] on a dict of the manifest. *)
Definition getitem {V} (d : list (string * V)) (k : string) : result V :=
  match dict_get d k with
  | Some v => Return v
  | None => Raise (KeyError k)
  end.

(** [v[k]] on an arbitrary value: only dicts can be subscripted by a key. *)
Definition subscript (v : pyval) (k : string) : result pyval :=
  match v with
  | PDict d => getitem d k
  | _ => Raise TypeError
  end.

(** [d.setdefault(k, v)]: sets [k] only when it is absent. *)
Definition setdefault (d : dict) (k : string) (v : pyval) : dict :=
  match dict_get d k with
  | Some _ => d
  | None => d ++ [(k, v)]
  end.

Fixpoint dict_set {V} (d : list (string * V)) (k : string) (v : V)
  : list (string * V) :=
  match d with
  | [] => [(k, v)]
  | (k', v') :: rest =>
      if String.eqb k' k then (k', v) :: rest else (k', v') :: dict_set rest k v
  end.

(** [d.update(other)] *)
Definition dict_update (d other : dict) : dict :=
  fold_left (fun acc kv => dict_set acc (fst kv) (snd kv)) other d.

(** ** The world outside the script *)

(** [mimetypes.guess_type] returns a pair [(type, encoding)]. *)
Definition content_type := (option string * option string)%type.

(** The [api_kwargs] dict handed to [generate_presigned_url]. *)
Record api_kwargs := {
  Bucket : pyval;
  Key : string;
  ContentType : content_type
}.

(** The [headers] dict handed to [upload_file]. *)
Record headers := { Content_Type : content_type }.

(** One entry per call that leaves the script. *)
Inductive Event :=
| EvValidate (config : dict) (url : string)
| EvDownload (url path : string)
| EvPresign (aws_access_key_id aws_secret_access_key : pyval)
            (params : api_kwargs) (expires_in : Z)
| EvUpload (url : string) (hdrs : headers) (path : string).

Definition is_validate (ev : Event) : bool :=
  match ev with EvValidate _ _ => true | _ => false end.

(** A job validates its source once, before anything else leaves the script:
    the validations in a trace count the jobs that got that far. *)
Definition jobs_attempted (history : list Event) : nat :=
  length (List.filter is_validate history).

Definition is_download (ev : Event) : bool :=
  match ev with EvDownload _ _ => true | _ => false end.

Definition is_presign (ev : Event) : bool :=
  match ev with EvPresign _ _ _ _ => true | _ => false end.

Definition is_upload (ev : Event) : bool :=
  match ev with EvUpload _ _ _ => true | _ => false end.

(** Anything that belongs to an upload: the request for the signed URL and
    the PUT attempts. *)
Definition is_upload_event (ev : Event) : bool := is_presign ev || is_upload ev.

(** The registry of the [mimetypes] module: extension to MIME type. *)
Definition mime_table := list (string * string).

Definition loc := nat.

(** [heap]: the dict objects, addressed by their position; [mime_db]: the
    registry of [mimetypes], [None] until the module is initialised;
    [trace]: the calls made so far, oldest first. *)
Record World := {
  trace : list Event;
  heap : list dict;
  mime_db : option mime_table
}.

Definition set_trace (t : list Event) (w : World) : World :=
  {| trace := t; heap := heap w; mime_db := mime_db w |}.
Definition set_heap (h : list dict) (w : World) : World :=
  {| trace := trace w; heap := h; mime_db := mime_db w |}.
Definition set_mime_db (db : option mime_table) (w : World) : World :=
  {| trace := trace w; heap := heap w; mime_db := db |}.

(** The manifest, as [generate_candidates_manifest] builds it. *)
Record Entry := { artifact : string; s3_key : string }.

Record Manifest := {
  artifact_base_url : string;
  s3_prefix_dated : string;
  s3_prefix_latest : string;
  mapping : list (string * list (string * Entry))
}.

(** [context.config] is a reference: the dict is shared by everything that
    holds the context.  The HTTP session is not modelled. *)
Record Context := { config : loc; task : pyval }.

(** The code this script imports.  A network call gets the trace of what
    happened before it, so its outcome may depend on the whole history (an
    upload that fails twice, then succeeds; a URL that differs per request).
    - scriptworker: [validate_artifact_url], [download_file], [upload_file],
      [get_task], and [retry_attempts], the [attempts] default of
      [retry_async];
    - boto3: [generate_presigned_url], which returns the URL or raises (the
      client rejects a call it does not accept with [TypeError]);
    - mimetypes: [mimetypes_default], the registry [init()] loads on this
      platform, and [guess_type], the lookup in a registry;
    - beetmoverscript.task, .utils, .constants: [validate_task_schema],
      [generate_candidates_manifest], [load_json], [MIME_MAP].
    They read what they are given; none of them writes to a dict of the
    script. *)
Class Collaborators := {
  validate_artifact_url : dict -> string -> result string;
  download_file : list Event -> string -> string -> result unit;
  upload_file : list Event -> string -> headers -> string -> result unit;
  retry_attempts : nat;
  get_task : dict -> result pyval;
  generate_presigned_url :
    list Event -> pyval -> pyval -> api_kwargs -> Z -> result string;
  mimetypes_default : mime_table;
  guess_type : mime_table -> string -> content_type;
  validate_task_schema : dict -> pyval -> result unit;
  generate_candidates_manifest : dict -> pyval -> result Manifest;
  load_json : string -> result dict;
  MIME_MAP : list (string * string)
}.

(** ** The monad: state, exceptions *)

Definition M (A : Type) := World -> result A * World.

Definition ret {A} (a : A) : M A := fun w => (Return a, w).

Definition raise {A} (e : exn) : M A := fun w => (Raise e, w).

Definition bind {A B} (m : M A) (k : A -> M B) : M B :=
  fun w =>
    match m w with
    | (Return a, w') => k a w'
    | (Raise e, w') => (Raise e, w')
    end.

Definition lift {A} (r : result A) : M A := fun w => (r, w).

Notation "x <- m ;; k" := (bind m (fun x => k))
  (at level 100, m at next level, right associativity).
Notation "m ;;; k" := (bind m (fun _ => k))
  (at level 100, right associativity).

(** [for x in xs: body(x)] *)
Fixpoint for_each {A} (xs : list A) (body : A -> M unit) : M unit :=
  match xs with
  | [] => ret tt
  | x :: rest => body x ;;; for_each rest body
  end.

(** [try: m  except ScriptWorkerTaskException as exc: handler(exc)] *)
Definition try_except_task {A} (m : M A) (handler : Z -> M A) : M A :=
  fun w =>
    match m w with
    | (Raise (ScriptWorkerTaskException code), w') => handler code w'
    | other => other
    end.

Definition log_event (ev : Event) : M unit :=
  fun w => (Return tt, set_trace (trace w ++ [ev]) w).

Definition get_trace : M (list Event) := fun w => (Return (trace w), w).

(** ** The object store *)

Definition read_dict (l : loc) : M dict :=
  fun w =>
    match heap w !! l with
    | Some d => (Return d, w)
    | None => (Raise TypeError, w)
    end.

Definition alloc_dict (d : dict) : M loc :=
  fun w => (Return (length (heap w)), set_heap (heap w ++ [d]) w).

Definition write_dict (l : loc) (d : dict) : M unit :=
  fun w => (Return tt, set_heap (<[l := d]> (heap w)) w).

(** [copy.deepcopy(obj)]: a new object with the same contents.  The values
    held in a stored dict are immutable trees, so the copy shares nothing
    with the original. *)
Definition deepcopy (l : loc) : M loc :=
  d <- read_dict l ;; alloc_dict d.

(** [obj.setdefault(k, v)] on a stored dict: mutates the object at [l]. *)
Definition obj_setdefault (l : loc) (k : string) (v : pyval) : M unit :=
  d <- read_dict l ;; write_dict l (setdefault d k v).

(** [obj[k]] on a stored dict. *)
Definition obj_getitem (l : loc) (k : string) : M pyval :=
  d <- read_dict l ;; lift (getitem d k).

Definition as_str (v : pyval) : result string :=
  match v with
  | PStr s => Return s
  | _ => Raise TypeError
  end.

(** ** The script *)

Section Script.

Context {env : Collaborators}.

(** *** Calls that leave the script: each is recorded in the trace *)

Definition call_validate_artifact_url (config : loc) (url : string) : M string :=
  d <- read_dict config ;;
  log_event (EvValidate d url) ;;;
  lift (validate_artifact_url d url).

Definition call_download_file (url path : string) : M unit :=
  history <- get_trace ;;
  log_event (EvDownload url path) ;;;
  lift (download_file history url path).

Definition call_upload_file (url : string) (hdrs : headers) (path : string)
  : M unit :=
  history <- get_trace ;;
  log_event (EvUpload url hdrs path) ;;;
  lift (upload_file history url hdrs path).

Definition call_generate_presigned_url (id key : pyval) (params : api_kwargs)
    (expires_in : Z) : M string :=
  history <- get_trace ;;
  log_event (EvPresign id key params expires_in) ;;;
  lift (generate_presigned_url history id key params expires_in).

(** [retry_async(func, args=...)] of scriptworker: [func] is awaited with the
    same arguments until it returns; an [Exception] is swallowed and the call
    repeated while the number of calls made is below [attempts], and re-raised
    after that.  The sleep between two calls is not modelled.  [retries_left]
    is [attempts] minus the calls made so far. *)
Fixpoint retry_loop {A} (func : M A) (retries_left : nat) : M A :=
  fun w =>
    match func w with
    | (Return a, w') => (Return a, w')
    | (Raise e, w') =>
        if is_Exception e then
          match retries_left with
          | O => (Raise e, w')
          | S n => retry_loop func n w'
          end
        else (Raise e, w')
    end.

Definition retry_async {A} (func : M A) : M A :=
  retry_loop func (retry_attempts - 1).

(** *** mimetypes *)

Definition mimetypes_init : M unit :=
  fun w => (Return tt, set_mime_db (Some mimetypes_default) w).

(** The registry, initialised on first use as the module does. *)
Definition mimetypes_db : M mime_table :=
  fun w =>
    match mime_db w with
    | Some t => (Return t, w)
    | None => (Return mimetypes_default, set_mime_db (Some mimetypes_default) w)
    end.

Definition mimetypes_add_type (type ext : string) : M unit :=
  t <- mimetypes_db ;;
  fun w => (Return tt, set_mime_db (Some (dict_set t ext type)) w).

Definition mimetypes_guess_type (path : string) : M content_type :=
  t <- mimetypes_db ;;
  ret (guess_type t path).

(** Python 3 [map(f, xs)] builds an iterator: [f] is applied to an element
    when the iterator is advanced, not when [map] is called.  The iterator is
    the list of the pending calls. *)
Definition py_map {A B} (f : A -> M B) (xs : list A) : list (M B) := map f xs.

(** Advancing an iterator to its end, as [list(it)] or a [for] loop does. *)
Definition exhaust {B} (it : list (M B)) : M unit :=
  for_each it (fun call => call ;;; ret tt).

(** *** script.py *)

Definition download (context : Context) (url path : string) : M unit :=
  retry_async (call_download_file url path).

Definition upload_to_s3 (context : Context) (s3_key path : string) : M unit :=
  s3 <- obj_getitem (config context) "s3" ;;
  bucket <- lift (subscript s3 "bucket") ;;
  guessed <- mimetypes_guess_type path ;;
  let api_kwargs :=
    {| Bucket := bucket; Key := s3_key; ContentType := guessed |} in
  guessed' <- mimetypes_guess_type path ;;
  let hdrs := {| Content_Type := guessed' |} in
  s3' <- obj_getitem (config context) "s3" ;;
  creds <- lift (subscript s3' "credentials") ;;
  id <- lift (subscript creds "id") ;;
  key <- lift (subscript creds "key") ;;
  url <- call_generate_presigned_url id key api_kwargs 30 ;;
  retry_async (call_upload_file url hdrs path).

Definition beetmove_bit (context : Context) (source : string)
    (destinations : list string) : M unit :=
  beet_config <- deepcopy (config context) ;;
  dependencies <- lift (subscript (task context) "dependencies") ;;
  obj_setdefault beet_config "valid_artifact_task_ids" dependencies ;;;
  rel_path <- call_validate_artifact_url beet_config source ;;
  work_dir <- obj_getitem (config context) "work_dir" ;;
  work_dir <- lift (as_str work_dir) ;;
  let abs_file_path := os_path_join work_dir rel_path in
  download context source abs_file_path ;;;
  for_each destinations (fun dest => upload_to_s3 context dest abs_file_path).

(** [manifest['mapping'][locale][deliverable]] *)
Definition manifest_entry (manifest : Manifest) (locale deliverable : string)
  : result Entry :=
  match getitem (mapping manifest) locale with
  | Return deliverables => getitem deliverables deliverable
  | Raise e => Raise e
  end.

Definition beetmove_bits (context : Context) (manifest : Manifest) : M unit :=
  for_each (keys (mapping manifest)) (fun locale =>
    deliverables <- lift (getitem (mapping manifest) locale) ;;
    for_each (keys deliverables) (fun deliverable =>
      e1 <- lift (manifest_entry manifest locale deliverable) ;;
      let source := os_path_join (artifact_base_url manifest) (artifact e1) in
      e2 <- lift (manifest_entry manifest locale deliverable) ;;
      let dest_dated := os_path_join (s3_prefix_dated manifest) (s3_key e2) in
      e3 <- lift (manifest_entry manifest locale deliverable) ;;
      let dest_latest := os_path_join (s3_prefix_latest manifest) (s3_key e3) in
      beetmove_bit context source [dest_dated; dest_latest])).

Definition async_main (context : Context) : M unit :=
  cfg <- read_dict (config context) ;;
  parsed <- lift (get_task cfg) ;;
  let context := {| config := config context; task := parsed |} in
  cfg <- read_dict (config context) ;;
  lift (validate_task_schema cfg (task context)) ;;;
  cfg <- read_dict (config context) ;;
  manifest <- lift (generate_candidates_manifest cfg (task context)) ;;
  beetmove_bits context manifest.

(** [usage()]: formats the usage line with [sys.argv[0]], which raises
    [IndexError] when the argument vector is empty, prints it and calls
    [sys.exit(1)]. *)
Definition usage (argv : list string) : M unit :=
  match argv !! 0%nat with
  | Some _ => raise (SystemExit 1)
  | None => raise (OtherError "IndexError")
  end.

Definition setup_config (argv : list string) (config_path : option string)
  : M Context :=
  config_path <-
    match config_path with
    | None =>
        (if negb (length argv =? 2)%nat then usage argv else ret tt) ;;;
        match argv !! 1%nat with
        | Some p => ret p
        | None => raise (OtherError "IndexError")
        end
    | Some p => ret p
    end ;;
  cfg <- alloc_dict [] ;;
  loaded <- lift (load_json config_path) ;;
  d <- read_dict cfg ;;
  write_dict cfg (dict_update d loaded) ;;;
  ret {| config := cfg; task := PNone |}.

(** Logging is not modelled. *)
Definition setup_logging : M unit := ret tt.

(** The result of [map] is dropped without being advanced. *)
Definition setup_mimetypes : M unit :=
  mimetypes_init ;;;
  let _ :=
    py_map (fun ext_mimetype =>
              mimetypes_add_type (snd ext_mimetype) (fst ext_mimetype))
           MIME_MAP in
  ret tt.

Definition sys_exit {A} (code : Z) : M A := raise (SystemExit code).

Definition main (argv : list string) (name config_path : option string)
  : M unit :=
  let run :=
    context <- setup_config argv config_path ;;
    setup_logging ;;;
    setup_mimetypes ;;;
    try_except_task (async_main context) (fun exit_code => sys_exit exit_code)
  in
  match name with
  | None => run
  | Some n => if String.eqb n "__main__" then run else ret tt
  end.

(** The module ends with [main(name=__name__)]; run as a program, [__name__]
    is ["__main__"]. *)
Definition script (argv : list string) : M unit :=
  main argv (Some "__main__") None.

(** What the parent process sees of [sys.exit(code)]: the interpreter
    converts the code to a C long, -1 standing for a code that does not fit,
    and the system keeps the low 8 bits of it. *)
Definition sys_exit_status (code : Z) : Z :=
  if ((- 2 ^ 63 <=? code) && (code <? 2 ^ 63))%Z
  then (code mod 256)%Z
  else 255%Z.

(** The exit status of the interpreter: 0 when the module runs to its end,
    that of [sys.exit] after a [SystemExit], 1 after an uncaught
    exception. *)
Definition exit_status {A} (r : result A) : Z :=
  match r with
  | Return _ => 0
  | Raise (SystemExit code) => sys_exit_status code
  | Raise _ => 1
  end.

End Script.

(** ** Vocabulary of the properties *)

Section Vocabulary.

Context {env : Collaborators}.

(** Lines 57 to 61 of [beetmove_bit]: what a job does before it touches the
    network.  [beetmove_bit] is this, then the download, then the uploads
    (lemma [beetmove_bit_steps]). *)
Definition job_local_path (context : Context) (source : string) : M string :=
  beet_config <- deepcopy (config context) ;;
  dependencies <- lift (subscript (task context) "dependencies") ;;
  obj_setdefault beet_config "valid_artifact_task_ids" dependencies ;;;
  rel_path <- call_validate_artifact_url beet_config source ;;
  work_dir <- obj_getitem (config context) "work_dir" ;;
  work_dir <- lift (as_str work_dir) ;;
  ret (os_path_join work_dir rel_path).

(** The entries of a manifest, in the order the two loops visit them. *)
Definition manifest_entries (manifest : Manifest) : list Entry :=
  flat_map (fun locale => map snd (snd locale)) (mapping manifest).

(** The source and the destinations [beetmove_bits] computes for one entry. *)
Definition copy_job (manifest : Manifest) (e : Entry) : string * list string :=
  (os_path_join (artifact_base_url manifest) (artifact e),
   [os_path_join (s3_prefix_dated manifest) (s3_key e);
    os_path_join (s3_prefix_latest manifest) (s3_key e)]).

Definition copy_jobs (manifest : Manifest) : list (string * list string) :=
  map (copy_job manifest) (manifest_entries manifest).

Definition run_job (context : Context) (job : string * list string) : M unit :=
  beetmove_bit context (fst job) (snd job).

(** A dict has one value per key: in a manifest no locale and, within a
    locale, no deliverable is listed twice. *)
Definition valid_manifest (manifest : Manifest) : Prop :=
  NoDup (keys (mapping manifest)) /\
  Forall (fun locale => NoDup (keys (snd locale))) (mapping manifest).

(** The registry [mimetypes] answers from: the module initialises itself
    from the platform on first use. *)
Definition current_types (w : World) : mime_table :=
  match mime_db w with
  | Some t => t
  | None => mimetypes_default
  end.

(** [ev] opens an upload to the key [dest]: it is the request for the signed
    URL of that key, the first thing [upload_to_s3] sends out. *)
Definition targets (dest : string) (ev : Event) : bool :=
  match ev with
  | EvPresign _ _ params _ => String.eqb (Key params) dest
  | _ => false
  end.

(** A call that leaves the script: it is recorded, and its outcome may depend
    on what was recorded before it.  [call_download_file] and
    [call_upload_file] are of this form. *)
Definition traced_call {A} (ev : Event) (outcome : list Event -> result A)
  : M A :=
  history <- get_trace ;;
  log_event ev ;;;
  lift (outcome history).

(** What [upload_to_s3] reads from the configuration, in the order it reads
    it: [config['s3']['bucket']], then [config['s3']['credentials']] and its
    ['id'] and ['key']. *)
Definition s3_settings (cfg : dict) : result (pyval * pyval * pyval) :=
  match getitem cfg "s3" with
  | Return s3 =>
      match subscript s3 "bucket" with
      | Return bucket =>
          match subscript s3 "credentials" with
          | Return creds =>
              match subscript creds "id" with
              | Return id =>
                  match subscript creds "key" with
                  | Return secret => Return (bucket, id, secret)
                  | Raise e => Raise e
                  end
              | Raise e => Raise e
              end
          | Raise e => Raise e
          end
      | Raise e => Raise e
      end
  | Raise e => Raise e
  end.

(** The keys for which a signed URL was requested, in the order of the
    requests. *)
Definition presigned_keys (history : list Event) : list string :=
  flat_map (fun ev => match ev with
                      | EvPresign _ _ params _ => [Key params]
                      | _ => []
                      end) history.

(** The validations made: the configuration and the URL of each, in order. *)
Definition validations (history : list Event) : list (dict * string) :=
  flat_map (fun ev => match ev with
                      | EvValidate cfg url => [(cfg, url)]
                      | _ => []
                      end) history.

(** An event of the upload of [path] to one of the keys [dests]. *)
Definition uploads_file (dests : list string) (path : string) (ev : Event)
  : Prop :=
  match ev with
  | EvPresign _ _ params expires_in =>
      In (Key params) dests /\ expires_in = 30%Z
  | EvUpload _ _ p => p = path
  | _ => False
  end.

(** [m] only appends to the trace, and only events that satisfy [P]. *)
Definition adds {A} (P : Event -> Prop) (m : M A) : Prop :=
  forall w, exists evs, trace (snd (m w)) = trace w ++ evs /\ Forall P evs.

Definition keeps_heap {A} (m : M A) : Prop :=
  forall w, heap (snd (m w)) = heap w.

Definition keeps_trace {A} (m : M A) : Prop :=
  forall w, trace (snd (m w)) = trace w.

End Vocabulary.

(** ** Concrete collaborators, for running the script *)

Module Demo.

(** The part of a path from its last dot on. *)
Fixpoint extension (path : string) : option string :=
  match path with
  | EmptyString => None
  | String c rest =>
      match extension rest with
      | Some e => Some e
      | None => if Ascii.eqb c "."%char then Some (String c rest) else None
      end
  end.

(** A registry lookup by extension; no encoding is ever reported. *)
Definition guess_by_extension (t : mime_table) (path : string) : content_type :=
  match extension path with
  | Some ext => (dict_get t ext, None)
  | None => (None, None)
  end.

Fixpoint strip_prefix (prefix s : string) : option string :=
  match prefix, s with
  | EmptyString, _ => Some s
  | String a p, String b r => if Ascii.eqb a b then strip_prefix p r else None
  | String _ _, EmptyString => None
  end.

Fixpoint first_some {A B} (f : A -> option B) (xs : list A) : option B :=
  match xs with
  | [] => None
  | x :: rest => match f x with Some b => Some b | None => first_some f rest end
  end.

(** An allowlist check in the manner of scriptworker's: the URL must be
    [root/<task id>/<path>] for a task id listed under
    [valid_artifact_task_ids]; the result is [<path>]. *)
Definition validate_under (root : string) (config : dict) (url : string)
  : result string :=
  match dict_get config "valid_artifact_task_ids" with
  | Some (PList ids) =>
      match first_some
              (fun id => match id with
                         | PStr t => strip_prefix (root ++ "/" ++ t ++ "/") url
                         | _ => None
                         end) ids with
      | Some rel => Return rel
      | None => Raise (ScriptWorkerTaskException 3)
      end
  | _ => Raise (ScriptWorkerTaskException 3)
  end.


Definition count_presigns (history : list Event) : nat :=
  length (List.filter is_presign history).

Definition nat_digit (n : nat) : string :=
  match n with
  | 0 => "0" | 1 => "1" | 2 => "2" | 3 => "3" | 4 => "4"
  | 5 => "5" | 6 => "6" | 7 => "7" | 8 => "8" | _ => "9"
  end.

(** Every request for a signed URL is answered with a new one. *)
Definition numbered_url (history : list Event) (id key : pyval)
    (params : api_kwargs) (expires_in : Z) : result string :=
  Return
    ("https://s3/" ++ Key params ++ "?sig=" ++
     nat_digit (count_presigns history))%string.

(** The client rejects the call: it knows no keyword [expires_in] (boto3
    names the parameter [ExpiresIn]). *)
Definition keyword_rejected (history : list Event) (id key : pyval)
    (params : api_kwargs) (expires_in : Z) : result string :=
  Raise TypeError.

Definition the_manifest : Manifest :=
  {| artifact_base_url := "https://x/artifacts/task123";
     s3_prefix_dated := "dated/2024";
     s3_prefix_latest := "latest";
     mapping :=
       [("en-US", [("installer",
                    {| artifact := "build/app.exe"; s3_key := "app.exe" |});
                   ("signature",
                    {| artifact := "build/app.exe.asc";
                       s3_key := "app.exe.asc" |})])] |}.

Definition the_config : dict :=
  [("work_dir", PStr "/work");
   ("s3", PDict [("bucket", PStr "bucket");
                 ("credentials", PDict [("id", PStr "AKIA");
                                        ("key", PStr "secret")])])].

Definition the_task : pyval := PDict [("dependencies", PList [PStr "task123"])].

Definition the_MIME_MAP : list (string * string) :=
  [(".asc", "text/plain"); (".mar", "application/octet-stream")].

Definition platform_types : mime_table :=
  [(".exe", "application/x-msdownload");
   (".asc", "application/pgp-signature")].

(** Collaborators whose network behaves as [dl] and [ul] say. *)
Definition collaborators
    (dl : list Event -> string -> string -> result unit)
    (ul : list Event -> string -> headers -> string -> result unit)
  : Collaborators :=
  {| validate_artifact_url := validate_under "https://x/artifacts";
     download_file := dl;
     upload_file := ul;
     retry_attempts := 5;
     get_task := fun _ => Return the_task;
     generate_presigned_url := numbered_url;
     mimetypes_default := platform_types;
     guess_type := guess_by_extension;
     validate_task_schema := fun _ _ => Return tt;
     generate_candidates_manifest := fun _ _ => Return the_manifest;
     load_json := fun _ => Return the_config;
     MIME_MAP := the_MIME_MAP |}.

Definition always_ok {A B C} : A -> B -> C -> result unit :=
  fun _ _ _ => Return tt.

Definition upload_ok : list Event -> string -> headers -> string -> result unit :=
  fun _ _ _ _ => Return tt.

Definition never_reachable : list Event -> string -> string -> result unit :=
  fun _ _ _ => Raise (OtherError "connection reset").


(** All is well. *)
Definition sunny : Collaborators := collaborators always_ok upload_ok.

(** No download ever succeeds. *)
Definition offline : Collaborators := collaborators never_reachable upload_ok.


(** The task fails schema validation. *)
Definition bad_task : Collaborators :=
  {| validate_artifact_url := validate_under "https://x/artifacts";
     download_file := always_ok;
     upload_file := upload_ok;
     retry_attempts := 5;
     get_task := fun _ => Return the_task;
     generate_presigned_url := numbered_url;
     mimetypes_default := platform_types;
     guess_type := guess_by_extension;
     validate_task_schema := fun _ _ => Raise (ScriptWorkerTaskException 3);
     generate_candidates_manifest := fun _ _ => Return the_manifest;
     load_json := fun _ => Return the_config;
     MIME_MAP := the_MIME_MAP |}.

(** The bucket refuses every PUT under the dated prefix and accepts the
    others. *)
Definition dated_upload_refused
  : list Event -> string -> headers -> string -> result unit :=
  fun _ url _ _ =>
    if startswith "https://s3/dated" url
    then Raise (OtherError "403 Forbidden")
    else Return tt.

Definition dated_refused : Collaborators :=
  collaborators always_ok dated_upload_refused.

Definition installer (locale task : string) : string * list (string * Entry) :=
  (locale,
   [("installer",
     {| artifact := task ++ "/build/" ++ locale ++ "/app.exe";
        s3_key := locale ++ "/app.exe" |})]).

(** Ten entries; the third comes from a task that is not a dependency. *)
Definition ten_jobs_manifest : Manifest :=
  {| artifact_base_url := "https://x/artifacts";
     s3_prefix_dated := "dated/2024";
     s3_prefix_latest := "latest";
     mapping :=
       [installer "de" "task123"; installer "en-US" "task123";
        installer "es" "task999"; installer "fr" "task123";
        installer "it" "task123"; installer "ja" "task123";
        installer "nl" "task123"; installer "pl" "task123";
        installer "pt" "task123"; installer "ru" "task123"] |}.

(** Both values of the entry are absolute paths. *)
Definition absolute_manifest : Manifest :=
  {| artifact_base_url := "https://x/artifacts/task123";
     s3_prefix_dated := "dated/2024";
     s3_prefix_latest := "latest";
     mapping :=
       [("en-US", [("installer",
                    {| artifact := "/build/app.exe";
                       s3_key := "/pub/app.exe" |})])] |}.

Definition count_downloads (history : list Event) : nat :=
  length (List.filter is_download history).

(** The first two downloads of the run time out; the later ones succeed. *)
Definition third_time_lucky : list Event -> string -> string -> result unit :=
  fun history _ _ =>
    if (count_downloads history <? 2)%nat
    then Raise (OtherError "timeout")
    else Return tt.

Definition flaky_network : Collaborators :=
  collaborators third_time_lucky upload_ok.

(** The configuration file cannot be loaded. *)
Definition unreadable_config : Collaborators :=
  {| validate_artifact_url := validate_under "https://x/artifacts";
     download_file := always_ok;
     upload_file := upload_ok;
     retry_attempts := 5;
     get_task := fun _ => Return the_task;
     generate_presigned_url := numbered_url;
     mimetypes_default := platform_types;
     guess_type := guess_by_extension;
     validate_task_schema := fun _ _ => Return tt;
     generate_candidates_manifest := fun _ _ => Return the_manifest;
     load_json := fun _ => Raise (ScriptWorkerTaskException 3);
     MIME_MAP := the_MIME_MAP |}.

(** The storage client rejects the request for a signed URL. *)
Definition strict_client : Collaborators :=
  {| validate_artifact_url := validate_under "https://x/artifacts";
     download_file := always_ok;
     upload_file := upload_ok;
     retry_attempts := 5;
     get_task := fun _ => Return the_task;
     generate_presigned_url := keyword_rejected;
     mimetypes_default := platform_types;
     guess_type := guess_by_extension;
     validate_task_schema := fun _ _ => Return tt;
     generate_candidates_manifest := fun _ _ => Return the_manifest;
     load_json := fun _ => Return the_config;
     MIME_MAP := the_MIME_MAP |}.

(** The task fails schema validation with an exit code of 256. *)
Definition wide_exit_code : Collaborators :=
  {| validate_artifact_url := validate_under "https://x/artifacts";
     download_file := always_ok;
     upload_file := upload_ok;
     retry_attempts := 5;
     get_task := fun _ => Return the_task;
     generate_presigned_url := numbered_url;
     mimetypes_default := platform_types;
     guess_type := guess_by_extension;
     validate_task_schema := fun _ _ => Raise (ScriptWorkerTaskException 256);
     generate_candidates_manifest := fun _ _ => Return the_manifest;
     load_json := fun _ => Return the_config;
     MIME_MAP := the_MIME_MAP |}.

(** A configuration that brings its own allowlist. *)
Definition own_allowlist_config : dict :=
  the_config ++ [("valid_artifact_task_ids", PList [PStr "task999"])].

Definition no_work_dir_config : dict :=
  [("s3", PDict [("bucket", PStr "bucket");
                 ("credentials", PDict [("id", PStr "AKIA");
                                        ("key", PStr "secret")])])].

Definition no_credentials_config : dict :=
  [("work_dir", PStr "/work"); ("s3", PDict [("bucket", PStr "bucket")])].

(** A world with [cfg] as the configuration, at address 0. *)
Definition world_with (cfg : dict) : World :=
  {| trace := []; heap := [cfg]; mime_db := Some platform_types |}.

(** A context whose task names no dependencies. *)
Definition bare_context : Context := {| config := 0; task := PDict [] |}.

(** A world with the configuration loaded at address 0 and [mimetypes]
    initialised from the platform. *)
Definition world0 : World :=
  {| trace := []; heap := [the_config]; mime_db := Some platform_types |}.

Definition empty_world : World :=
  {| trace := []; heap := []; mime_db := None |}.

Definition the_context : Context := {| config := 0; task := the_task |}.

Definition app_exe : string := "https://x/artifacts/task123/build/app.exe".

(** An artifact of a task that is not among the dependencies. *)
Definition foreign_exe : string := "https://x/artifacts/task999/build/app.exe".

Definition dated_key : string := "dated/2024/app.exe".
Definition latest_key : string := "latest/app.exe".
Definition local_exe : string := "/work/build/app.exe".

(** The per-job copy of the configuration. *)
Definition the_beet_config : dict :=
  the_config ++ [("valid_artifact_task_ids", PList [PStr "task123"])].

End Demo.

(** ** Paths *)

Example os_path_join_relative :
  os_path_join "dated/2024" "app.exe" = "dated/2024/app.exe".
Proof. reflexivity. Qed.

Example os_path_join_trailing_sep :
  os_path_join "latest/" "app.exe" = "latest/app.exe".
Proof. reflexivity. Qed.

Example os_path_join_absolute :
  os_path_join "https://x/artifacts" "/build/app.exe" = "/build/app.exe".
Proof. reflexivity. Qed.

Lemma os_path_join_absolute_right (a b : string) :
  startswith "/" b = true -> os_path_join a b = b.
Proof. intros Hb. unfold os_path_join. now rewrite Hb. Qed.

(** ** What each step may touch *)

Section Properties.

Context {env : Collaborators}.

Lemma adds_ret {A} P (a : A) : adds P (ret a).
Proof. intros w. exists []. cbn. rewrite app_nil_r. auto. Qed.

Lemma adds_raise {A} P e : adds P (@raise A e).
Proof. intros w. exists []. cbn. rewrite app_nil_r. auto. Qed.

Lemma adds_lift {A} P (r : result A) : adds P (lift r).
Proof. intros w. exists []. cbn. rewrite app_nil_r. auto. Qed.

Lemma adds_keeps_trace {A} P (m : M A) : keeps_trace m -> adds P m.
Proof. intros Hm w. exists []. rewrite Hm, app_nil_r. auto. Qed.

Lemma adds_weaken {A} (P Q : Event -> Prop) (m : M A) :
  (forall ev, P ev -> Q ev) -> adds P m -> adds Q m.
Proof.
  intros HPQ Hm w. destruct (Hm w) as (evs & Ht & HP).
  exists evs. split; [exact Ht|]. eapply Forall_impl; eauto.
Qed.

Lemma adds_bind {A B} P (m : M A) (k : A -> M B) :
  adds P m -> (forall a, adds P (k a)) -> adds P (bind m k).
Proof.
  intros Hm Hk w. unfold bind.
  destruct (Hm w) as (evs & Ht & HP).
  destruct (m w) as [[a|e] w1]; cbn in *.
  - destruct (Hk a w1) as (evs' & Ht' & HP').
    exists (evs ++ evs'). rewrite Ht', Ht, app_assoc. split; [reflexivity|].
    apply Forall_app; auto.
  - exists evs. auto.
Qed.

Lemma adds_log_event (P : Event -> Prop) ev : P ev -> adds P (log_event ev).
Proof. intros Hev w. exists [ev]. cbn. auto. Qed.

Lemma keeps_trace_read_dict l : keeps_trace (read_dict l).
Proof. intros w. unfold read_dict. now destruct (heap w !! l). Qed.

Lemma keeps_trace_alloc_dict d : keeps_trace (alloc_dict d).
Proof. now intros w. Qed.

Lemma keeps_trace_write_dict l d : keeps_trace (write_dict l d).
Proof. now intros w. Qed.

Lemma keeps_trace_get_trace : keeps_trace get_trace.
Proof. now intros w. Qed.

Lemma keeps_trace_mimetypes_db : keeps_trace mimetypes_db.
Proof. intros w. unfold mimetypes_db. now destruct (mime_db w). Qed.

Lemma adds_retry_loop {A} P (func : M A) n :
  adds P func -> adds P (retry_loop func n).
Proof.
  intros Hf. induction n as [|n IH]; intros w; cbn;
    destruct (Hf w) as (evs & Ht & HP);
    destruct (func w) as [[a|e] w1]; cbn in *; eauto;
    destruct (is_Exception e); cbn; eauto.
  destruct (IH w1) as (evs' & Ht' & HP').
  exists (evs ++ evs'). rewrite Ht', Ht, app_assoc. split; [reflexivity|].
  apply Forall_app; auto.
Qed.

Lemma adds_for_each {A} P (xs : list A) (body : A -> M unit) :
  (forall x, adds P (body x)) -> adds P (for_each xs body).
Proof.
  intros Hb. induction xs as [|x xs IH]; cbn.
  - apply adds_ret.
  - apply adds_bind; auto.
Qed.

Lemma keeps_heap_ret {A} (a : A) : keeps_heap (ret a).
Proof. now intros w. Qed.

Lemma keeps_heap_lift {A} (r : result A) : keeps_heap (lift r).
Proof. now intros w. Qed.

Lemma keeps_heap_bind {A B} (m : M A) (k : A -> M B) :
  keeps_heap m -> (forall a, keeps_heap (k a)) -> keeps_heap (bind m k).
Proof.
  intros Hm Hk w. unfold bind. specialize (Hm w).
  destruct (m w) as [[a|e] w1]; cbn in *; [|exact Hm].
  now rewrite Hk.
Qed.

Lemma keeps_heap_read_dict l : keeps_heap (read_dict l).
Proof. intros w. unfold read_dict. now destruct (heap w !! l). Qed.

Lemma keeps_heap_log_event ev : keeps_heap (log_event ev).
Proof. now intros w. Qed.

Lemma keeps_heap_get_trace : keeps_heap get_trace.
Proof. now intros w. Qed.

Lemma keeps_heap_mimetypes_db : keeps_heap mimetypes_db.
Proof. intros w. unfold mimetypes_db. now destruct (mime_db w). Qed.

Lemma keeps_heap_retry_loop {A} (func : M A) n :
  keeps_heap func -> keeps_heap (retry_loop func n).
Proof.
  intros Hf. induction n as [|n IH]; intros w; cbn;
    specialize (Hf w); destruct (func w) as [[a|e] w1]; cbn in *; auto;
    destruct (is_Exception e); cbn; auto.
  now rewrite IH.
Qed.

Lemma keeps_heap_for_each {A} (xs : list A) (body : A -> M unit) :
  (forall x, keeps_heap (body x)) -> keeps_heap (for_each xs body).
Proof.
  intros Hb. induction xs as [|x xs IH]; cbn.
  - apply keeps_heap_ret.
  - apply keeps_heap_bind; auto.
Qed.

Create HintDb frames.

#[local] Hint Resolve
  keeps_heap_ret keeps_heap_lift keeps_heap_read_dict keeps_heap_log_event
  keeps_heap_get_trace keeps_heap_mimetypes_db : frames.
#[local] Hint Resolve
  keeps_trace_read_dict keeps_trace_alloc_dict keeps_trace_write_dict
  keeps_trace_get_trace keeps_trace_mimetypes_db : frames.

Local Ltac frame_heap :=
  repeat first
    [ apply keeps_heap_bind; [|intros ?]
    | apply keeps_heap_retry_loop
    | apply keeps_heap_for_each; intros ?
    | solve [auto with frames] ].

Lemma keeps_heap_download context url path :
  keeps_heap (download context url path).
Proof. unfold download, retry_async, call_download_file. frame_heap. Qed.

Lemma keeps_heap_upload_to_s3 context s3_key path :
  keeps_heap (upload_to_s3 context s3_key path).
Proof.
  unfold upload_to_s3, retry_async, call_upload_file,
    call_generate_presigned_url, obj_getitem, mimetypes_guess_type.
  frame_heap.
Qed.

(** ** The monad laws the proofs use, pointwise *)

Lemma bind_assoc {A B C} (m : M A) (k : A -> M B) (h : B -> M C) w :
  bind (bind m k) h w = bind m (fun a => bind (k a) h) w.
Proof. unfold bind. now destruct (m w) as [[a|e] w1]. Qed.

Lemma bind_ext {A B} (m : M A) (k k' : A -> M B) w :
  (forall a w1, k a w1 = k' a w1) -> bind m k w = bind m k' w.
Proof. intros Hk. unfold bind. now destruct (m w) as [[a|e] w1]. Qed.

Lemma bind_returns {A B} (m : M A) (k : A -> M B) w a w1 :
  m w = (Return a, w1) -> bind m k w = k a w1.
Proof. intros Hm. unfold bind. now rewrite Hm. Qed.

Lemma bind_raises {A B} (m : M A) (k : A -> M B) w e w1 :
  m w = (Raise e, w1) -> bind m k w = (Raise e, w1).
Proof. intros Hm. unfold bind. now rewrite Hm. Qed.

Lemma for_each_app {A} (xs ys : list A) (body : A -> M unit) w :
  for_each (xs ++ ys) body w = (for_each xs body ;;; for_each ys body) w.
Proof.
  revert w. induction xs as [|x xs IH]; intros w; cbn.
  - reflexivity.
  - rewrite bind_assoc. apply bind_ext. intros _ w1. apply IH.
Qed.

(** ** One job, step by step *)

Lemma beetmove_bit_steps context source destinations w :
  beetmove_bit context source destinations w =
  (abs_file_path <- job_local_path context source ;;
   download context source abs_file_path ;;;
   for_each destinations
     (fun dest => upload_to_s3 context dest abs_file_path)) w.
Proof.
  unfold beetmove_bit, job_local_path. symmetry.
  repeat (rewrite bind_assoc; apply bind_ext; intros ? ?).
  reflexivity.
Qed.

(** The store grows at its end: a new object never displaces an old one. *)
Lemma lookup_new_object (h : list dict) (d : dict) :
  (h ++ [d]) !! length h = Some d.
Proof. now apply list_lookup_middle. Qed.

Lemma insert_new_object (h : list dict) (d d' : dict) :
  <[length h := d']> (h ++ [d]) = h ++ [d'].
Proof.
  rewrite insert_app_r_alt by lia. now rewrite Nat.sub_diag.
Qed.

Lemma job_local_path_run context source w cfg deps :
  heap w !! config context = Some cfg ->
  subscript (task context) "dependencies" = Return deps ->
  let beet_config := setdefault cfg "valid_artifact_task_ids" deps in
  job_local_path context source w =
  (match validate_artifact_url beet_config source with
   | Return rel_path =>
       match getitem cfg "work_dir" with
       | Return v =>
           match as_str v with
           | Return work_dir => Return (os_path_join work_dir rel_path)
           | Raise e => Raise e
           end
       | Raise e => Raise e
       end
   | Raise e => Raise e
   end,
   {| trace := trace w ++ [EvValidate beet_config source];
      heap := heap w ++ [beet_config];
      mime_db := mime_db w |}).
Proof.
  intros Hcfg Hdeps beet_config.
  unfold job_local_path, deepcopy, obj_setdefault, call_validate_artifact_url,
    obj_getitem, read_dict, alloc_dict, write_dict, log_event, lift, bind, ret.
  cbn. rewrite Hcfg. cbn. rewrite Hdeps. cbn.
  rewrite lookup_new_object. cbn.
  rewrite insert_new_object, lookup_new_object. cbn.
  fold beet_config.
  destruct (validate_artifact_url beet_config source) as [rel|e]; [|reflexivity].
  rewrite (lookup_app_l_Some _ _ _ _ Hcfg).
  destruct (getitem cfg "work_dir") as [v|e]; [|reflexivity].
  destruct (as_str v); reflexivity.
Qed.

Lemma job_local_path_early context source w :
  heap w !! config context = None \/
  is_raise (subscript (task context) "dependencies") = true ->
  exists e copies,
    fst (job_local_path context source w) = Raise e /\
    trace (snd (job_local_path context source w)) = trace w /\
    heap (snd (job_local_path context source w)) = heap w ++ copies.
Proof.
  unfold job_local_path, deepcopy, obj_setdefault, call_validate_artifact_url,
    obj_getitem, read_dict, alloc_dict, write_dict, log_event, lift, bind, ret.
  cbn. intros [Hcfg|Hdeps].
  - rewrite Hcfg. cbn. exists TypeError, []. now rewrite app_nil_r.
  - destruct (heap w !! config context) as [cfg|]; cbn.
    + destruct (subscript (task context) "dependencies") as [deps|e];
        [discriminate|]. cbn. now exists e, [cfg].
    + exists TypeError, []. now rewrite app_nil_r.
Qed.

(** ** What the network steps add to the trace *)

Local Ltac frame_trace :=
  repeat first
    [ apply adds_bind; [|intros ?]
    | apply adds_retry_loop
    | apply adds_for_each; intros ?
    | apply adds_ret
    | apply adds_lift
    | apply adds_raise
    | apply adds_log_event
    | apply adds_keeps_trace; solve [auto with frames] ].

Lemma adds_download context url path :
  adds (fun ev => ev = EvDownload url path) (download context url path).
Proof.
  unfold download, retry_async, call_download_file. frame_trace. reflexivity.
Qed.

Lemma adds_upload_to_s3 context s3_key path :
  adds (fun ev => is_upload_event ev = true) (upload_to_s3 context s3_key path).
Proof.
  unfold upload_to_s3, retry_async, call_upload_file,
    call_generate_presigned_url, obj_getitem, mimetypes_guess_type.
  frame_trace; reflexivity.
Qed.

Lemma adds_after_local_path context source destinations path :
  adds (fun ev => ev = EvDownload source path \/ is_upload_event ev = true)
    (download context source path ;;;
     for_each destinations (fun dest => upload_to_s3 context dest path)).
Proof.
  apply adds_bind; [|intros _; apply adds_for_each; intros dest].
  - eapply adds_weaken; [|apply adds_download]. auto.
  - eapply adds_weaken; [|apply adds_upload_to_s3]. auto.
Qed.

(** ** C1: validation precedes download *)

(** C1. In every run of a copy job the events the job adds to the trace hold
    a download only behind the [validate_artifact_url] call of that job, and
    only when that call returned; when the call raises, the job raises the
    same exception and the validation is the one event of the job: no
    download is made. *)
Theorem C1_validation_precedes_download context source destinations w :
  let r := fst (beetmove_bit context source destinations w) in
  let w' := snd (beetmove_bit context source destinations w) in
  (exists evs,
     trace w' = trace w ++ evs /\
     (Exists (fun ev => is_download ev = true) evs ->
      exists cfg rel_path rest,
        evs = EvValidate cfg source :: rest /\
        validate_artifact_url cfg source = Return rel_path)) /\
  (forall cfg deps e,
     heap w !! config context = Some cfg ->
     subscript (task context) "dependencies" = Return deps ->
     validate_artifact_url
       (setdefault cfg "valid_artifact_task_ids" deps) source = Raise e ->
     r = Raise e /\
     trace w' =
       trace w ++
       [EvValidate (setdefault cfg "valid_artifact_task_ids" deps) source]).
Proof.
  cbn zeta. rewrite beetmove_bit_steps.
  destruct (heap w !! config context) as [cfg|] eqn:Hcfg.
  2:{ destruct (job_local_path_early context source w (or_introl Hcfg))
        as (e & copies & Hr & Ht & _).
      destruct (job_local_path context source w) as [r1 w1] eqn:Hrun.
      cbn in Hr, Ht. subst r1. rewrite (bind_raises _ _ _ _ _ Hrun). cbn.
      split; [|discriminate].
      exists []. rewrite app_nil_r. split; [exact Ht|].
      intros Hex. now apply Exists_nil in Hex. }
  destruct (subscript (task context) "dependencies") as [deps|e0] eqn:Hdeps.
  2:{ assert (Hearly : heap w !! config context = None \/
                       is_raise (subscript (task context) "dependencies") = true)
        by (right; now rewrite Hdeps).
      destruct (job_local_path_early context source w Hearly)
        as (e & copies & Hr & Ht & _).
      destruct (job_local_path context source w) as [r1 w1] eqn:Hrun.
      cbn in Hr, Ht. subst r1. rewrite (bind_raises _ _ _ _ _ Hrun). cbn.
      split; [|discriminate].
      exists []. rewrite app_nil_r. split; [exact Ht|].
      intros Hex. now apply Exists_nil in Hex. }
  pose proof (job_local_path_run context source w cfg deps Hcfg Hdeps) as Hrun.
  cbn zeta in Hrun.
  set (beet_config := setdefault cfg "valid_artifact_task_ids" deps) in *.
  assert (Hno : ~ Exists (fun ev => is_download ev = true)
                    [EvValidate beet_config source]).
  { intros Hex. apply Exists_cons in Hex as [Hex|Hex]; [discriminate|].
    now apply Exists_nil in Hex. }
  destruct (validate_artifact_url beet_config source) as [rel|e] eqn:Hval.
  - split; [|intros cfg0 deps0 e0 [= <-] [= <-] Hval0;
              unfold beet_config in Hval; congruence].
    match type of Hrun with _ = (?res, ?w1) =>
      destruct res as [path|e] eqn:Hres end.
    + rewrite (bind_returns _ _ _ _ _ Hrun).
      match goal with |- context [snd (?m ?w1)] =>
        destruct (adds_after_local_path context source destinations path w1)
          as (rest & Ht & _) end.
      exists (EvValidate beet_config source :: rest).
      split; [rewrite Ht; cbn; now rewrite <- app_assoc|].
      intros _. now exists beet_config, rel, rest.
    + rewrite (bind_raises _ _ _ _ _ Hrun). cbn.
      exists [EvValidate beet_config source]. split; [reflexivity|].
      intros Hex. now destruct Hno.
  - rewrite (bind_raises _ _ _ _ _ Hrun). cbn. split.
    + exists [EvValidate beet_config source]. split; [reflexivity|].
      intros Hex. now destruct Hno.
    + intros cfg0 deps0 e0 [= <-] [= <-] Hval0. fold beet_config in Hval0.
      rewrite Hval in Hval0. injection Hval0 as <-. now split.
Qed.

(** ** C5: no upload after a failed download *)

Lemma adds_job_local_path context source :
  adds (fun ev => is_upload_event ev = false) (job_local_path context source).
Proof.
  unfold job_local_path, deepcopy, obj_setdefault, call_validate_artifact_url,
    obj_getitem.
  frame_trace. reflexivity.
Qed.

(** C5. When a job has reached its download (its local path is computed:
    configuration read, source validated) and the download raises, retries
    included, the job raises that exception in the world the download left:
    the loop over the destinations is never entered, and what the job added to
    the trace holds no request for a signed URL and no upload. *)
Theorem C5_failed_download_no_upload
    context source destinations w abs_file_path w1 e w2 :
  job_local_path context source w = (Return abs_file_path, w1) ->
  download context source abs_file_path w1 = (Raise e, w2) ->
  beetmove_bit context source destinations w = (Raise e, w2) /\
  exists evs,
    trace w2 = trace w ++ evs /\
    Forall (fun ev => is_upload_event ev = false) evs.
Proof.
  intros Hpath Hdl. split.
  - rewrite beetmove_bit_steps, (bind_returns _ _ _ _ _ Hpath).
    now rewrite (bind_raises _ _ _ _ _ Hdl).
  - destruct (adds_job_local_path context source w) as (evs1 & Ht1 & HP1).
    destruct (adds_download context source abs_file_path w1)
      as (evs2 & Ht2 & HP2).
    rewrite Hpath in Ht1. rewrite Hdl in Ht2. cbn in Ht1, Ht2.
    exists (evs1 ++ evs2). rewrite Ht2, Ht1, app_assoc. split; [reflexivity|].
    apply Forall_app. split; [exact HP1|].
    eapply Forall_impl; [exact HP2|]. now intros ev ->.
Qed.

(** ** C9: the shared configuration is left alone *)

Lemma keeps_heap_after_local_path context source destinations path :
  keeps_heap
    (download context source path ;;;
     for_each destinations (fun dest => upload_to_s3 context dest path)).
Proof.
  apply keeps_heap_bind; [apply keeps_heap_download|intros _].
  apply keeps_heap_for_each. intros dest. apply keeps_heap_upload_to_s3.
Qed.

Lemma job_local_path_heap context source w :
  exists copies,
    heap (snd (job_local_path context source w)) = heap w ++ copies /\
    (heap w !! config context = None -> copies = []) /\
    (forall cfg deps,
       heap w !! config context = Some cfg ->
       subscript (task context) "dependencies" = Return deps ->
       copies = [setdefault cfg "valid_artifact_task_ids" deps]).
Proof.
  destruct (heap w !! config context) as [cfg|] eqn:Hcfg.
  - destruct (subscript (task context) "dependencies") as [deps|e] eqn:Hdeps.
    + rewrite (job_local_path_run context source w cfg deps Hcfg Hdeps). cbn.
      eexists. split; [reflexivity|]. split; [discriminate|].
      now intros cfg0 deps0 [= <-] [= <-].
    + unfold job_local_path, deepcopy, read_dict, alloc_dict, lift, bind.
      cbn. rewrite Hcfg. cbn. rewrite Hdeps. cbn.
      exists [cfg]. split; [reflexivity|]. split; discriminate.
  - unfold job_local_path, deepcopy, read_dict, bind. cbn. rewrite Hcfg. cbn.
    exists []. rewrite app_nil_r. split; [reflexivity|]. split; [reflexivity|].
    discriminate.
Qed.

(** C9. A copy job changes no object that existed before it: the store after
    the job is the store before it followed by the job's own copy of the
    configuration, so the dict [context.config] refers to is the same before
    and after; and the copy is where [valid_artifact_task_ids] got its
    default. *)
Theorem C9_shared_config_unchanged context source destinations w :
  let w' := snd (beetmove_bit context source destinations w) in
  heap w' !! config context = heap w !! config context /\
  (exists copies, heap w' = heap w ++ copies) /\
  (forall cfg deps,
     heap w !! config context = Some cfg ->
     subscript (task context) "dependencies" = Return deps ->
     heap w' = heap w ++ [setdefault cfg "valid_artifact_task_ids" deps]).
Proof.
  cbn zeta. rewrite beetmove_bit_steps.
  destruct (job_local_path_heap context source w) as (copies & Hh & Hnone & Hsome).
  assert (Hheap :
    heap (snd ((abs_file_path <- job_local_path context source ;;
                download context source abs_file_path ;;;
                for_each destinations
                  (fun dest => upload_to_s3 context dest abs_file_path)) w))
    = heap w ++ copies).
  { unfold bind at 1.
    destruct (job_local_path context source w) as [[path|e] w1]; cbn in *.
    - now rewrite keeps_heap_after_local_path.
    - exact Hh. }
  rewrite Hheap. split; [|split].
  - destruct (heap w !! config context) as [cfg|] eqn:Hcfg.
    + now apply lookup_app_l_Some.
    + now rewrite (Hnone eq_refl), app_nil_r.
  - now exists copies.
  - intros cfg deps Hcfg Hdeps. now rewrite (Hsome cfg deps Hcfg Hdeps).
Qed.

(** ** One upload: one signed URL, then the attempts *)



(** ** C2: the destinations of one job *)

Lemma adds_upload_to_s3_target context s3_key path other :
  s3_key <> other ->
  adds (fun ev => targets other ev = false) (upload_to_s3 context s3_key path).
Proof.
  intros Hne.
  unfold upload_to_s3, retry_async, call_upload_file,
    call_generate_presigned_url, obj_getitem, mimetypes_guess_type.
  frame_trace; cbn; [now apply String.eqb_neq | reflexivity].
Qed.

Lemma bind_ret_unit (m : M unit) w : (m ;;; ret tt) w = m w.
Proof. unfold bind, ret. now destruct (m w) as [[[]|e] w1]. Qed.

(** C2, as the code has it. Once the download of a job has returned, the
    upload to the dated destination decides what follows: if it raises (its
    retries are used up), the job raises the same exception in the world that
    upload left, so the latest destination is not attempted and, the two keys
    being different, nothing the job added to the trace opens an upload to the
    latest destination; if it returns, the job goes on with the upload to the
    latest destination. *)
Theorem C2_failed_dated_upload_ends_job
    context source dest_dated dest_latest w abs_file_path w1 w2 :
  job_local_path context source w = (Return abs_file_path, w1) ->
  download context source abs_file_path w1 = (Return tt, w2) ->
  (forall e w3,
     upload_to_s3 context dest_dated abs_file_path w2 = (Raise e, w3) ->
     beetmove_bit context source [dest_dated; dest_latest] w = (Raise e, w3) /\
     exists evs,
       trace w3 = trace w ++ evs /\
       (dest_dated <> dest_latest ->
        Forall (fun ev => targets dest_latest ev = false) evs)) /\
  (forall w3,
     upload_to_s3 context dest_dated abs_file_path w2 = (Return tt, w3) ->
     beetmove_bit context source [dest_dated; dest_latest] w =
     upload_to_s3 context dest_latest abs_file_path w3).
Proof.
  intros Hpath Hdl. split.
  - intros e w3 Hup. split.
    + rewrite beetmove_bit_steps, (bind_returns _ _ _ _ _ Hpath),
        (bind_returns _ _ _ _ _ Hdl).
      cbn. now rewrite (bind_raises _ _ _ _ _ Hup).
    + destruct (adds_job_local_path context source w) as (evs1 & Ht1 & HP1).
      destruct (adds_download context source abs_file_path w1)
        as (evs2 & Ht2 & HP2).
      rewrite Hpath in Ht1. rewrite Hdl in Ht2. cbn in Ht1, Ht2.
      destruct (string_dec dest_dated dest_latest) as [Heq|Hne].
      * destruct (adds_upload_to_s3 context dest_dated abs_file_path w2)
          as (evs3 & Ht3 & _).
        rewrite Hup in Ht3. cbn in Ht3.
        exists (evs1 ++ evs2 ++ evs3).
        split; [rewrite Ht3, Ht2, Ht1, <- !app_assoc; reflexivity|].
        intros Hne. now destruct Hne.
      * destruct (adds_upload_to_s3_target context dest_dated abs_file_path
                    dest_latest Hne w2) as (evs3 & Ht3 & HP3).
        rewrite Hup in Ht3. cbn in Ht3.
        exists (evs1 ++ evs2 ++ evs3).
        split; [rewrite Ht3, Ht2, Ht1, <- !app_assoc; reflexivity|].
        intros _. rewrite !Forall_app. split; [|split].
        -- eapply Forall_impl; [exact HP1|]. intros ev Hev.
           destruct ev; cbn in *; try reflexivity. discriminate.
        -- eapply Forall_impl; [exact HP2|]. now intros ev ->.
        -- exact HP3.
  - intros w3 Hup.
    rewrite beetmove_bit_steps, (bind_returns _ _ _ _ _ Hpath),
      (bind_returns _ _ _ _ _ Hdl).
    cbn. rewrite (bind_returns _ _ _ _ _ Hup). apply bind_ret_unit.
Qed.

(** ** The jobs of a manifest *)

Lemma dict_get_NoDup {V} (d : list (string * V)) k v :
  NoDup (keys d) -> In (k, v) d -> dict_get d k = Some v.
Proof.
  induction d as [|[k' v'] d IH]; cbn; intros Hnd Hin; [contradiction|].
  apply NoDup_cons in Hnd as [Hk' Hnd].
  destruct Hin as [[= -> ->]|Hin].
  - now rewrite String.eqb_refl.
  - destruct (String.eqb_spec k' k) as [->|_]; [|now apply IH].
    destruct Hk'. apply list_elem_of_In. unfold keys.
    change k with (fst (k, v)). now apply in_map.
Qed.

Lemma getitem_NoDup {V} (d : list (string * V)) k v :
  NoDup (keys d) -> In (k, v) d -> getitem d k = Return v.
Proof. intros Hnd Hin. unfold getitem. now rewrite (dict_get_NoDup d k v). Qed.

Lemma bind_ext2 {A B} (m m' : M A) (k k' : A -> M B) w :
  (forall w0, m w0 = m' w0) -> (forall a w1, k a w1 = k' a w1) ->
  bind m k w = bind m' k' w.
Proof.
  intros Hm Hk. unfold bind. rewrite Hm. now destruct (m' w) as [[a|e] w1].
Qed.

Lemma map_flat_map {A B C} (f : B -> C) (g : A -> list B) (l : list A) :
  map f (flat_map g l) = flat_map (fun x => map f (g x)) l.
Proof.
  induction l as [|x l IH]; cbn; [reflexivity|]. now rewrite map_app, IH.
Qed.

(** The inner loop, over the deliverables of one locale. *)
Lemma deliverables_loop context manifest locale deliverables :
  getitem (mapping manifest) locale = Return deliverables ->
  NoDup (keys deliverables) ->
  forall visited,
    (forall kv, In kv visited -> In kv deliverables) ->
    forall w,
      for_each (keys visited) (fun deliverable =>
        e1 <- lift (manifest_entry manifest locale deliverable) ;;
        let source :=
          os_path_join (artifact_base_url manifest) (artifact e1) in
        e2 <- lift (manifest_entry manifest locale deliverable) ;;
        let dest_dated :=
          os_path_join (s3_prefix_dated manifest) (s3_key e2) in
        e3 <- lift (manifest_entry manifest locale deliverable) ;;
        let dest_latest :=
          os_path_join (s3_prefix_latest manifest) (s3_key e3) in
        beetmove_bit context source [dest_dated; dest_latest]) w =
      for_each (map (fun kv => copy_job manifest (snd kv)) visited)
        (run_job context) w.
Proof.
  intros Hloc Hnd visited.
  induction visited as [|[k e] visited IH]; intros Hsub w; cbn [keys map];
    [reflexivity|].
  assert (Hentry : manifest_entry manifest locale k = Return e).
  { unfold manifest_entry. rewrite Hloc. apply getitem_NoDup; [exact Hnd|].
    apply Hsub. now left. }
  cbn [for_each fst snd]. apply bind_ext2.
  - intros w0. rewrite Hentry. reflexivity.
  - intros _ w0. apply IH. intros kv Hin. apply Hsub. now right.
Qed.

Lemma locales_loop context manifest :
  valid_manifest manifest ->
  forall visited,
    (forall kv, In kv visited -> In kv (mapping manifest)) ->
    forall w,
      for_each (keys visited) (fun locale =>
        deliverables <- lift (getitem (mapping manifest) locale) ;;
        for_each (keys deliverables) (fun deliverable =>
          e1 <- lift (manifest_entry manifest locale deliverable) ;;
          let source :=
            os_path_join (artifact_base_url manifest) (artifact e1) in
          e2 <- lift (manifest_entry manifest locale deliverable) ;;
          let dest_dated :=
            os_path_join (s3_prefix_dated manifest) (s3_key e2) in
          e3 <- lift (manifest_entry manifest locale deliverable) ;;
          let dest_latest :=
            os_path_join (s3_prefix_latest manifest) (s3_key e3) in
          beetmove_bit context source [dest_dated; dest_latest])) w =
      for_each
        (flat_map (fun locale =>
                     map (fun kv => copy_job manifest (snd kv)) (snd locale))
                  visited)
        (run_job context) w.
Proof.
  intros [Hnd Hinner] visited.
  induction visited as [|[locale deliverables] visited IH]; intros Hsub w; cbn;
    [reflexivity|].
  assert (Hin : In (locale, deliverables) (mapping manifest))
    by (apply Hsub; now left).
  assert (Hloc : getitem (mapping manifest) locale = Return deliverables)
    by now apply getitem_NoDup.
  assert (Hnd' : NoDup (keys deliverables)).
  { rewrite Forall_forall in Hinner.
    apply (Hinner (locale, deliverables)). now apply list_elem_of_In. }
  cbn [keys map for_each fst snd]. rewrite for_each_app. apply bind_ext2.
  - intros w0. rewrite Hloc.
    apply (deliverables_loop context manifest locale deliverables Hloc Hnd'
             deliverables (fun kv H => H) w0).
  - intros _ w0. apply IH. intros kv Hkv. apply Hsub. now right.
Qed.

(** [beetmove_bits] runs the jobs of the manifest one after the other. *)
Lemma beetmove_bits_jobs context manifest w :
  valid_manifest manifest ->
  beetmove_bits context manifest w =
  for_each (copy_jobs manifest) (run_job context) w.
Proof.
  intros Hvalid. unfold beetmove_bits.
  etransitivity.
  { apply (locales_loop context manifest Hvalid (mapping manifest)
             (fun kv H => H) w). }
  unfold copy_jobs, manifest_entries.
  rewrite map_flat_map. f_equal. clear.
  induction (mapping manifest) as [|[locale ds] l IH]; cbn; [reflexivity|].
  now rewrite IH, map_map.
Qed.

(** ** Counting the jobs of a run *)

Lemma jobs_attempted_app h1 h2 :
  jobs_attempted (h1 ++ h2) = (jobs_attempted h1 + jobs_attempted h2)%nat.
Proof. unfold jobs_attempted. now rewrite List.filter_app, length_app. Qed.

Lemma jobs_attempted_none evs :
  Forall (fun ev => is_validate ev = false) evs -> jobs_attempted evs = 0%nat.
Proof.
  unfold jobs_attempted. induction 1 as [|ev evs Hev _ IH]; [reflexivity|].
  cbn. now rewrite Hev.
Qed.

(** A job that returns has validated its source exactly once. *)
Lemma run_job_attempted context job w w' :
  run_job context job w = (Return tt, w') ->
  jobs_attempted (trace w') = S (jobs_attempted (trace w)).
Proof.
  unfold run_job. rewrite beetmove_bit_steps. intros Hrun.
  destruct (heap w !! config context) as [cfg|] eqn:Hcfg.
  2:{ destruct (job_local_path_early context (fst job) w (or_introl Hcfg))
        as (e & _ & Hr & _).
      destruct (job_local_path context (fst job) w) as [r1 w1] eqn:Hpath.
      cbn in Hr. subst r1. rewrite (bind_raises _ _ _ _ _ Hpath) in Hrun.
      discriminate. }
  destruct (subscript (task context) "dependencies") as [deps|e0] eqn:Hdeps.
  2:{ assert (Hearly : heap w !! config context = None \/
                       is_raise (subscript (task context) "dependencies") = true)
        by (right; now rewrite Hdeps).
      destruct (job_local_path_early context (fst job) w Hearly)
        as (e & _ & Hr & _).
      destruct (job_local_path context (fst job) w) as [r1 w1] eqn:Hpath.
      cbn in Hr. subst r1. rewrite (bind_raises _ _ _ _ _ Hpath) in Hrun.
      discriminate. }
  pose proof (job_local_path_run context (fst job) w cfg deps Hcfg Hdeps)
    as Hpath. cbn zeta in Hpath.
  match type of Hpath with _ = (?res, ?w1) =>
    destruct res as [path|e] eqn:Hres end.
  - rewrite (bind_returns _ _ _ _ _ Hpath) in Hrun.
    match type of Hrun with ?m ?w1 = _ =>
      destruct (adds_after_local_path context (fst job) (snd job) path w1)
        as (rest & Ht & HP) end.
    rewrite Hrun in Ht. cbn in Ht. rewrite Ht, !jobs_attempted_app.
    rewrite (jobs_attempted_none rest).
    + cbn. lia.
    + eapply Forall_impl; [exact HP|]. intros ev [->|Hev]; [reflexivity|].
      destruct ev; cbn in *; try reflexivity; discriminate.
  - rewrite (bind_raises _ _ _ _ _ Hpath) in Hrun. discriminate.
Qed.

Lemma run_jobs_attempted context jobs w w' :
  for_each jobs (run_job context) w = (Return tt, w') ->
  jobs_attempted (trace w') = (jobs_attempted (trace w) + length jobs)%nat.
Proof.
  revert w. induction jobs as [|job jobs IH]; intros w; cbn.
  - intros [= <-]. lia.
  - unfold bind at 1.
    destruct (run_job context job w) as [[[]|e] w1] eqn:Hjob; [|discriminate].
    intros Hrest. rewrite (IH w1 Hrest), (run_job_attempted _ _ _ _ Hjob). lia.
Qed.

(** ** C6, C10: the jobs derived from the entries *)

Lemma manifest_entries_length manifest :
  length (manifest_entries manifest) =
  list_sum (map (fun locale => length (snd locale)) (mapping manifest)).
Proof.
  unfold manifest_entries.
  induction (mapping manifest) as [|[locale ds] l IH]; cbn; [reflexivity|].
  now rewrite length_app, length_map, IH.
Qed.

(** C6. For a manifest with N (locale, deliverable) entries, [beetmove_bits]
    is the sequence of N calls of [beetmove_bit], one per entry in the order of
    the manifest; the call for an entry gets as source [artifact_base_url]
    joined with the entry's [artifact], and as destinations exactly two keys:
    [s3_prefix_dated] joined with the entry's [s3_key], then
    [s3_prefix_latest] joined with it.  A run that returns has attempted
    exactly N jobs. *)
Theorem C6_one_job_per_entry context manifest :
  valid_manifest manifest ->
  (forall w,
     beetmove_bits context manifest w =
     for_each (copy_jobs manifest)
       (fun job => beetmove_bit context (fst job) (snd job)) w) /\
  length (copy_jobs manifest) = length (manifest_entries manifest) /\
  length (manifest_entries manifest) =
    list_sum (map (fun locale => length (snd locale)) (mapping manifest)) /\
  Forall2
    (fun e job =>
       fst job = os_path_join (artifact_base_url manifest) (artifact e) /\
       snd job = [os_path_join (s3_prefix_dated manifest) (s3_key e);
                  os_path_join (s3_prefix_latest manifest) (s3_key e)])
    (manifest_entries manifest) (copy_jobs manifest) /\
  (forall w w',
     beetmove_bits context manifest w = (Return tt, w') ->
     jobs_attempted (trace w') =
     (jobs_attempted (trace w) + length (manifest_entries manifest))%nat).
Proof.
  intros Hvalid. split; [|split; [|split; [|split]]].
  - intros w. now apply beetmove_bits_jobs.
  - unfold copy_jobs. apply length_map.
  - apply manifest_entries_length.
  - unfold copy_jobs.
    induction (manifest_entries manifest) as [|e l IH]; cbn; constructor; auto.
  - intros w w' Hrun. rewrite beetmove_bits_jobs in Hrun by exact Hvalid.
    rewrite (run_jobs_attempted _ _ _ _ Hrun). unfold copy_jobs.
    now rewrite length_map.
Qed.

(** The run of a manifest, cut at one of its entries. *)
Lemma beetmove_bits_at_entry context manifest before e after w :
  valid_manifest manifest ->
  manifest_entries manifest = before ++ e :: after ->
  beetmove_bits context manifest w =
  (for_each (map (copy_job manifest) before) (run_job context) ;;;
   run_job context (copy_job manifest e) ;;;
   for_each (map (copy_job manifest) after) (run_job context)) w.
Proof.
  intros Hvalid Hentries. rewrite beetmove_bits_jobs by exact Hvalid.
  unfold copy_jobs. rewrite Hentries, map_app. cbn [map].
  now rewrite for_each_app.
Qed.

(** C10. In the run of a manifest, the job [beetmove_bits] starts for an
    entry, after the jobs of the entries before it, is the call of
    [beetmove_bit] with these arguments: when the [artifact] of the entry
    begins with ["/"], the source is that value alone, without
    [artifact_base_url]; when its [s3_key] begins with ["/"], both
    destinations are that value alone, without [s3_prefix_dated] or
    [s3_prefix_latest]. *)
Theorem C10_absolute_entry_discards_base
    context manifest before e after w :
  valid_manifest manifest ->
  manifest_entries manifest = before ++ e :: after ->
  let source :=
    if startswith "/" (artifact e) then artifact e
    else os_path_join (artifact_base_url manifest) (artifact e) in
  let dest_dated :=
    if startswith "/" (s3_key e) then s3_key e
    else os_path_join (s3_prefix_dated manifest) (s3_key e) in
  let dest_latest :=
    if startswith "/" (s3_key e) then s3_key e
    else os_path_join (s3_prefix_latest manifest) (s3_key e) in
  beetmove_bits context manifest w =
  (for_each (map (copy_job manifest) before)
     (fun job => beetmove_bit context (fst job) (snd job)) ;;;
   beetmove_bit context source [dest_dated; dest_latest] ;;;
   for_each (map (copy_job manifest) after)
     (fun job => beetmove_bit context (fst job) (snd job))) w.
Proof.
  intros Hvalid Hentries. cbn zeta.
  rewrite (beetmove_bits_at_entry context manifest before e after w
             Hvalid Hentries).
  unfold run_job at 2, copy_job at 2 3. cbn [fst snd].
  destruct (startswith "/" (artifact e)) eqn:Ha;
    destruct (startswith "/" (s3_key e)) eqn:Hk;
    rewrite ?(os_path_join_absolute_right _ _ Ha),
      ?(os_path_join_absolute_right _ _ Hk);
    reflexivity.
Qed.

(** ** C3: the jobs of one run *)

(** C3, as the code has it. The jobs are run in the order of the manifest, and
    the first job that raises ends the run: [beetmove_bits] raises that job's
    exception in the world that job left, so no later job is attempted and the
    error leaves the orchestrator as an exception. *)
Theorem C3_first_failing_job_ends_run
    context manifest done job rest w w1 e w2 :
  valid_manifest manifest ->
  copy_jobs manifest = done ++ job :: rest ->
  for_each done (run_job context) w = (Return tt, w1) ->
  run_job context job w1 = (Raise e, w2) ->
  beetmove_bits context manifest w = (Raise e, w2).
Proof.
  intros Hvalid Hjobs Hdone Hjob.
  rewrite beetmove_bits_jobs by exact Hvalid.
  rewrite Hjobs, for_each_app, (bind_returns _ _ _ _ _ Hdone). cbn.
  now rewrite (bind_raises _ _ _ _ _ Hjob).
Qed.

(** ** C4: the MIME registry after start-up *)

(** [setup_mimetypes] leaves the registry as the platform defines it,
    whatever [MIME_MAP] holds: the iterator [map] returns is never advanced,
    so [add_type] is never called. *)
Lemma setup_mimetypes_run w :
  setup_mimetypes w = (Return tt, set_mime_db (Some mimetypes_default) w).
Proof. reflexivity. Qed.

Lemma current_types_after_setup w :
  current_types (snd (setup_mimetypes w)) = mimetypes_default.
Proof. reflexivity. Qed.

(** ** C8: the exit status *)

Lemma sys_exit_status_small code :
  (0 <= code <= 255)%Z -> sys_exit_status code = code.
Proof.
  intros Hcode. unfold sys_exit_status.
  assert (Hfit : ((- 2 ^ 63 <=? code) && (code <? 2 ^ 63))%Z = true).
  { apply andb_true_intro. split; [apply Z.leb_le|apply Z.ltb_lt]; lia. }
  rewrite Hfit. apply Z.mod_small. lia.
Qed.

(** C8, as the code has it. The exit status of the program follows
    [async_main]: 0 when it returns; when it raises a
    [ScriptWorkerTaskException], [main] calls [sys.exit] with the
    [exit_code] of that exception, and the status is what the system keeps
    of that code, its low 8 bits: the code itself, non-zero, when it lies
    between 1 and 255.  An exception raised before that, while the
    configuration is loaded, is outside the [try]: it is not turned into an
    exit code, and the status is 1. *)
Theorem C8_exit_status argv name config_path w :
  name = None \/ name = Some "__main__" ->
  (forall context w1 w3,
     setup_config argv config_path w = (Return context, w1) ->
     async_main context (set_mime_db (Some mimetypes_default) w1) =
       (Return tt, w3) ->
     main argv name config_path w = (Return tt, w3) /\
     exit_status (fst (main argv name config_path w)) = 0%Z) /\
  (forall context w1 exit_code w3,
     setup_config argv config_path w = (Return context, w1) ->
     async_main context (set_mime_db (Some mimetypes_default) w1) =
       (Raise (ScriptWorkerTaskException exit_code), w3) ->
     main argv name config_path w = (Raise (SystemExit exit_code), w3) /\
     exit_status (fst (main argv name config_path w)) =
       sys_exit_status exit_code /\
     ((1 <= exit_code <= 255)%Z ->
      exit_status (fst (main argv name config_path w)) = exit_code /\
      exit_status (fst (main argv name config_path w)) <> 0%Z)) /\
  (forall e w1,
     setup_config argv config_path w = (Raise e, w1) ->
     is_Exception e = true ->
     main argv name config_path w = (Raise e, w1) /\
     exit_status (fst (main argv name config_path w)) = 1%Z).
Proof.
  intros Hname.
  assert (Hmain : forall context w1,
            setup_config argv config_path w = (Return context, w1) ->
            main argv name config_path w =
            try_except_task (async_main context)
              (fun exit_code => sys_exit exit_code)
              (set_mime_db (Some mimetypes_default) w1)).
  { intros context w1 Hsetup. unfold main. cbv zeta.
    destruct Hname as [->| ->]; rewrite ?String.eqb_refl;
      unfold bind at 1; rewrite Hsetup; reflexivity. }
  split; [|split].
  - intros context w1 w3 Hsetup Hrun. rewrite (Hmain _ _ Hsetup).
    unfold try_except_task. rewrite Hrun. now split.
  - intros context w1 exit_code w3 Hsetup Hrun. rewrite (Hmain _ _ Hsetup).
    unfold try_except_task. rewrite Hrun. cbn.
    split; [reflexivity|]. split; [reflexivity|].
    intros Hcode. rewrite sys_exit_status_small by lia. split; lia.
  - intros e w1 Hsetup Hexc.
    assert (Hraise : main argv name config_path w = (Raise e, w1)).
    { unfold main. cbv zeta.
      destruct Hname as [->| ->]; rewrite ?String.eqb_refl;
        unfold bind at 1; rewrite Hsetup; reflexivity. }
    rewrite Hraise. split; [reflexivity|]. now destruct e.
Qed.

(** ** More on one job: the configuration it is validated against *)

Lemma dict_get_app {V} (d1 d2 : list (string * V)) k :
  dict_get (d1 ++ d2) k =
  match dict_get d1 k with
  | Some v => Some v
  | None => dict_get d2 k
  end.
Proof.
  induction d1 as [|[k' v'] d1 IH]; cbn; [reflexivity|].
  now destruct (String.eqb k' k).
Qed.

Lemma dict_get_setdefault (d : dict) k v k' :
  dict_get (setdefault d k v) k' =
  match dict_get d k' with
  | Some x => Some x
  | None => if String.eqb k k' then Some v else None
  end.
Proof.
  unfold setdefault. destruct (dict_get d k) as [x|] eqn:Hk.
  - destruct (dict_get d k') as [x'|] eqn:Hk'; [reflexivity|].
    destruct (String.eqb_spec k k') as [->|_]; [congruence|reflexivity].
  - rewrite dict_get_app. cbn. now destruct (dict_get d k').
Qed.

(** The configuration a job is validated against is the job's copy: it
    agrees with the shared configuration on every key but
    [valid_artifact_task_ids], and for that key it keeps the value of the
    shared configuration when there is one; the dependencies of the task are
    used only when the configuration has no such key. *)
Theorem beetmove_bit_allowlist context source destinations w cfg deps :
  heap w !! config context = Some cfg ->
  subscript (task context) "dependencies" = Return deps ->
  exists beet_config rest,
    trace (snd (beetmove_bit context source destinations w)) =
      trace w ++ EvValidate beet_config source :: rest /\
    dict_get beet_config "valid_artifact_task_ids" =
      Some (match dict_get cfg "valid_artifact_task_ids" with
            | Some ids => ids
            | None => deps
            end) /\
    (forall k, k <> "valid_artifact_task_ids" ->
               dict_get beet_config k = dict_get cfg k).
Proof.
  intros Hcfg Hdeps.
  pose proof (job_local_path_run context source w cfg deps Hcfg Hdeps) as Hrun.
  cbn zeta in Hrun.
  set (beet_config := setdefault cfg "valid_artifact_task_ids" deps) in *.
  assert (Htrace : exists rest,
            trace (snd (beetmove_bit context source destinations w)) =
            trace w ++ EvValidate beet_config source :: rest).
  { rewrite beetmove_bit_steps.
    match type of Hrun with _ = (?res, ?w1) =>
      destruct res as [path|e] eqn:Hres end.
    - rewrite (bind_returns _ _ _ _ _ Hrun).
      match goal with |- context [snd (?m ?w1)] =>
        destruct (adds_after_local_path context source destinations path w1)
          as (rest & Ht & _) end.
      exists rest. rewrite Ht. cbn. now rewrite <- app_assoc.
    - rewrite (bind_raises _ _ _ _ _ Hrun). now exists []. }
  destruct Htrace as (rest & Ht).
  exists beet_config, rest. split; [exact Ht|]. split.
  - unfold beet_config. rewrite dict_get_setdefault, String.eqb_refl.
    now destruct (dict_get cfg "valid_artifact_task_ids").
  - intros k Hk. unfold beet_config. rewrite dict_get_setdefault.
    destruct (dict_get cfg k); [reflexivity|].
    destruct (String.eqb_spec "valid_artifact_task_ids" k) as [<-|_];
      [contradiction|reflexivity].
Qed.

(** A task that has no [dependencies] stops the job before the validation:
    the argument of [setdefault] is evaluated whether or not the
    configuration has its own [valid_artifact_task_ids].  The job raises
    [KeyError], nothing leaves the script, and the copy of the configuration
    is all that was made. *)
Theorem beetmove_bit_missing_dependencies
    context source destinations w cfg t :
  heap w !! config context = Some cfg ->
  task context = PDict t ->
  dict_get t "dependencies" = None ->
  beetmove_bit context source destinations w =
  (Raise (KeyError "dependencies"), set_heap (heap w ++ [cfg]) w).
Proof.
  intros Hcfg Htask Hdeps.
  unfold beetmove_bit, deepcopy, read_dict, alloc_dict, lift, bind.
  rewrite Hcfg, Htask. cbn. unfold getitem. now rewrite Hdeps.
Qed.

(** A configuration without [work_dir] stops the job after the validation
    and before the download: the job raises [KeyError] and the validation is
    its only event. *)
Theorem beetmove_bit_missing_work_dir
    context source destinations w cfg deps rel_path :
  heap w !! config context = Some cfg ->
  subscript (task context) "dependencies" = Return deps ->
  validate_artifact_url
    (setdefault cfg "valid_artifact_task_ids" deps) source = Return rel_path ->
  dict_get cfg "work_dir" = None ->
  fst (beetmove_bit context source destinations w) =
    Raise (KeyError "work_dir") /\
  trace (snd (beetmove_bit context source destinations w)) =
    trace w ++
    [EvValidate (setdefault cfg "valid_artifact_task_ids" deps) source].
Proof.
  intros Hcfg Hdeps Hval Hwd.
  pose proof (job_local_path_run context source w cfg deps Hcfg Hdeps) as Hrun.
  cbn zeta in Hrun. rewrite Hval in Hrun. unfold getitem in Hrun.
  rewrite Hwd in Hrun.
  rewrite beetmove_bit_steps, (bind_raises _ _ _ _ _ Hrun). now split.
Qed.

(** ** Retried calls *)

Lemma repeat_snoc {A} (x : A) n : repeat x n ++ [x] = x :: repeat x n.
Proof. induction n as [|n IH]; cbn; [reflexivity|]. now rewrite IH. Qed.

Lemma traced_call_run {A} ev (outcome : list Event -> result A) w :
  traced_call ev outcome w =
  (outcome (trace w), set_trace (trace w ++ [ev]) w).
Proof. reflexivity. Qed.

(** The attempts of a retried call: between one and [n + 1], each recorded,
    nothing else recorded and nothing else changed. *)
Lemma retry_traced_run {A} ev (outcome : list Event -> result A) n w :
  exists k,
    (1 <= k <= S n)%nat /\
    snd (retry_loop (traced_call ev outcome) n w) =
      set_trace (trace w ++ repeat ev k) w.
Proof.
  revert w. induction n as [|n IH]; intros w; cbn [retry_loop];
    rewrite traced_call_run.
  - exists 1%nat. split; [lia|].
    destruct (outcome (trace w)) as [a|e]; [reflexivity|].
    now destruct (is_Exception e).
  - destruct (outcome (trace w)) as [a|e].
    + exists 1%nat. split; [lia|reflexivity].
    + destruct (is_Exception e).
      * destruct (IH (set_trace (trace w ++ [ev]) w)) as (k & Hk & Hrun).
        exists (S k). split; [lia|]. rewrite Hrun. unfold set_trace. cbn.
        now rewrite <- app_assoc.
      * exists 1%nat. split; [lia|reflexivity].
Qed.

(** [K] failed attempts, then one that returns: the call returns after
    [K + 1] attempts, provided [K] retries are allowed. *)
Lemma retry_traced_succeeds {A} ev (outcome : list Event -> result A) n K a w :
  (K <= n)%nat ->
  (forall i, (i < K)%nat ->
     exists e, outcome (trace w ++ repeat ev i) = Raise e /\
               is_Exception e = true) ->
  outcome (trace w ++ repeat ev K) = Return a ->
  retry_loop (traced_call ev outcome) n w =
  (Return a, set_trace (trace w ++ repeat ev (S K)) w).
Proof.
  revert n w. induction K as [|K IH]; intros n w Hn Hfail Hok.
  - cbn in Hok. rewrite app_nil_r in Hok.
    destruct n; cbn [retry_loop]; rewrite traced_call_run, Hok; reflexivity.
  - destruct n as [|n]; [lia|]. cbn [retry_loop]. rewrite traced_call_run.
    destruct (Hfail 0%nat) as (e & He & Hexc); [lia|].
    cbn in He. rewrite app_nil_r in He. rewrite He, Hexc.
    rewrite (IH n (set_trace (trace w ++ [ev]) w)).
    + unfold set_trace. cbn. now rewrite <- app_assoc.
    + lia.
    + intros i Hi. destruct (Hfail (S i)) as (e' & He' & Hexc'); [lia|].
      exists e'. split; [|exact Hexc']. cbn. now rewrite <- app_assoc.
    + cbn. now rewrite <- app_assoc.
Qed.

(** Every attempt fails: the call is made [n + 1] times and the exception of
    the last attempt is raised. *)
Lemma retry_traced_exhausted {A} ev (outcome : list Event -> result A) n w :
  (forall i, (i <= n)%nat ->
     exists e, outcome (trace w ++ repeat ev i) = Raise e /\
               is_Exception e = true) ->
  exists e,
    outcome (trace w ++ repeat ev n) = Raise e /\
    retry_loop (traced_call ev outcome) n w =
    (Raise e, set_trace (trace w ++ repeat ev (S n)) w).
Proof.
  revert w. induction n as [|n IH]; intros w Hfail.
  - destruct (Hfail 0%nat) as (e & He & Hexc); [lia|]. exists e.
    split; [exact He|]. cbn in He. rewrite app_nil_r in He.
    cbn [retry_loop]. now rewrite traced_call_run, He, Hexc.
  - destruct (Hfail 0%nat) as (e0 & He0 & Hexc0); [lia|].
    cbn in He0. rewrite app_nil_r in He0.
    destruct (IH (set_trace (trace w ++ [ev]) w)) as (e & He & Hrun).
    { intros i Hi. destruct (Hfail (S i)) as (e' & He' & Hexc'); [lia|].
      exists e'. split; [|exact Hexc']. cbn. now rewrite <- app_assoc. }
    exists e. split.
    + cbn in He. rewrite <- app_assoc in He. exact He.
    + cbn [retry_loop]. rewrite traced_call_run, He0, Hexc0, Hrun.
      unfold set_trace. cbn. now rewrite <- app_assoc.
Qed.

(** ** The download *)

(** A download that fails [K] times and then succeeds returns after exactly
    [K + 1] calls of [download_file], all for the same URL and path, as long
    as [K] is below the number of attempts [retry_async] allows. *)
Theorem download_succeeds_after_retries context url path K w :
  (K < Nat.max 1 retry_attempts)%nat ->
  (forall i, (i < K)%nat ->
     exists e,
       download_file (trace w ++ repeat (EvDownload url path) i) url path =
         Raise e /\
       is_Exception e = true) ->
  download_file (trace w ++ repeat (EvDownload url path) K) url path =
    Return tt ->
  download context url path w =
  (Return tt, set_trace (trace w ++ repeat (EvDownload url path) (S K)) w).
Proof.
  intros HK Hfail Hok. unfold download, retry_async.
  apply (retry_traced_succeeds (EvDownload url path)
           (fun history => download_file history url path));
    [lia | exact Hfail | exact Hok].
Qed.

(** A download whose every attempt fails is given up after as many calls of
    [download_file] as [retry_async] allows (one, if it allows none), and
    raises the exception of the last call. *)
Theorem download_gives_up context url path w :
  (forall i, (i < Nat.max 1 retry_attempts)%nat ->
     exists e,
       download_file (trace w ++ repeat (EvDownload url path) i) url path =
         Raise e /\
       is_Exception e = true) ->
  exists e,
    download_file
      (trace w ++ repeat (EvDownload url path) (Nat.max 1 retry_attempts - 1))
      url path = Raise e /\
    download context url path w =
    (Raise e,
     set_trace
       (trace w ++ repeat (EvDownload url path) (Nat.max 1 retry_attempts)) w).
Proof.
  intros Hfail. unfold download, retry_async.
  destruct (retry_traced_exhausted (EvDownload url path)
              (fun history => download_file history url path)
              (retry_attempts - 1) w) as (e & He & Hrun).
  { intros i Hi. apply Hfail. lia. }
  exists e.
  replace (Nat.max 1 retry_attempts - 1)%nat with (retry_attempts - 1)%nat
    by lia.
  replace (Nat.max 1 retry_attempts) with (S (retry_attempts - 1)) by lia.
  split; [exact He|exact Hrun].
Qed.

(** ** The upload *)

(** An upload that has read its settings: the request for the signed URL is
    recorded, and its outcome decides between the exception and the PUT
    attempts. *)
Lemma upload_to_s3_run context s3_key path w cfg bucket id secret :
  heap w !! config context = Some cfg ->
  s3_settings cfg = Return (bucket, id, secret) ->
  let guessed := guess_type (current_types w) path in
  let params :=
    {| Bucket := bucket; Key := s3_key; ContentType := guessed |} in
  let w1 :=
    {| trace := trace w ++ [EvPresign id secret params 30];
       heap := heap w;
       mime_db := Some (current_types w) |} in
  upload_to_s3 context s3_key path w =
  match generate_presigned_url (trace w) id secret params 30 with
  | Return url =>
      retry_async (call_upload_file url {| Content_Type := guessed |} path) w1
  | Raise e => (Raise e, w1)
  end.
Proof.
  intros Hcfg Hs3. cbn zeta. unfold s3_settings in Hs3.
  unfold upload_to_s3, obj_getitem, mimetypes_guess_type, mimetypes_db,
    call_generate_presigned_url, read_dict, get_trace, log_event, lift, bind,
    ret.
  rewrite Hcfg. cbn.
  destruct (getitem cfg "s3") as [s3|e] eqn:Hs; [cbn|discriminate].
  destruct (subscript s3 "bucket") as [b|e]; [cbn|discriminate].
  unfold current_types.
  destruct (mime_db w) as [t|] eqn:Hdb; cbn;
    repeat (rewrite ?Hdb, ?Hcfg, ?Hs; cbn).
  all: destruct (subscript s3 "credentials") as [creds|e]; [cbn|discriminate].
  all: destruct (subscript creds "id") as [i|e]; [cbn|discriminate].
  all: destruct (subscript creds "key") as [k|e]; [cbn|discriminate].
  all: injection Hs3 as -> -> ->; unfold retry_async, set_trace; cbn;
    rewrite ?Hdb;
    match goal with
    | |- context [generate_presigned_url ?h ?i ?k ?p ?x] =>
        destruct (generate_presigned_url h i k p x)
    end; cbn; rewrite ?Hdb; reflexivity.
Qed.

(** An upload that cannot read its settings raises the error of the lookup
    that failed and sends nothing. *)
Lemma upload_to_s3_early context s3_key path w cfg e :
  heap w !! config context = Some cfg ->
  s3_settings cfg = Raise e ->
  fst (upload_to_s3 context s3_key path w) = Raise e /\
  trace (snd (upload_to_s3 context s3_key path w)) = trace w /\
  heap (snd (upload_to_s3 context s3_key path w)) = heap w.
Proof.
  intros Hcfg Hs3. unfold s3_settings in Hs3.
  unfold upload_to_s3, obj_getitem, mimetypes_guess_type, mimetypes_db,
    call_generate_presigned_url, read_dict, get_trace, log_event, lift, bind,
    ret.
  rewrite Hcfg. cbn.
  destruct (getitem cfg "s3") as [s3|e0] eqn:Hs; cbn;
    [|injection Hs3 as ->; auto].
  destruct (subscript s3 "bucket") as [b|e0]; cbn;
    [|injection Hs3 as ->; auto].
  destruct (mime_db w) as [t|] eqn:Hdb; cbn;
    repeat (rewrite ?Hdb, ?Hcfg, ?Hs; cbn).
  all: destruct (subscript s3 "credentials") as [creds|e0]; cbn;
    [|injection Hs3 as ->; auto].
  all: destruct (subscript creds "id") as [i|e0]; cbn;
    [|injection Hs3 as ->; auto].
  all: destruct (subscript creds "key") as [k|e0]; cbn;
    [discriminate|injection Hs3 as ->; auto].
Qed.

(** When the configuration lacks one of the values the upload needs,
    [upload_to_s3] raises [KeyError] for the first one that is missing, in
    the order [s3], [bucket], [credentials], [id], [key], and sends nothing:
    no signed URL is requested and nothing is PUT. *)
Theorem upload_to_s3_incomplete_config context s3_key path w cfg :
  heap w !! config context = Some cfg ->
  let stops_with (k : string) :=
    fst (upload_to_s3 context s3_key path w) = Raise (KeyError k) /\
    trace (snd (upload_to_s3 context s3_key path w)) = trace w in
  (dict_get cfg "s3" = None -> stops_with "s3") /\
  (forall s3,
     dict_get cfg "s3" = Some (PDict s3) ->
     (dict_get s3 "bucket" = None -> stops_with "bucket") /\
     (forall bucket,
        dict_get s3 "bucket" = Some bucket ->
        (dict_get s3 "credentials" = None -> stops_with "credentials") /\
        (forall creds,
           dict_get s3 "credentials" = Some (PDict creds) ->
           (dict_get creds "id" = None -> stops_with "id") /\
           (forall id,
              dict_get creds "id" = Some id ->
              dict_get creds "key" = None -> stops_with "key")))).
Proof.
  intros Hcfg stops_with.
  assert (Hstop : forall k, s3_settings cfg = Raise (KeyError k) ->
                            stops_with k).
  { intros k Hs3.
    destruct (upload_to_s3_early context s3_key path w cfg _ Hcfg Hs3)
      as (Hr & Ht & _). now split. }
  unfold s3_settings, subscript, getitem in Hstop.
  split.
  - intros Hs3. apply Hstop. now rewrite Hs3.
  - intros s3 Hs3. rewrite Hs3 in Hstop. split.
    + intros Hb. apply Hstop. now rewrite Hb.
    + intros bucket Hb. rewrite Hb in Hstop. split.
      * intros Hc. apply Hstop. now rewrite Hc.
      * intros creds Hc. rewrite Hc in Hstop. split.
        -- intros Hi. apply Hstop. now rewrite Hi.
        -- intros id Hi Hk. apply Hstop. now rewrite Hi, Hk.
Qed.

(** The request for the signed URL is made once and is not retried:
    [retry_async] wraps the PUT only.  When the request raises, as it does
    when the client rejects the call, the upload raises that exception after
    this one request, and nothing is PUT. *)
Theorem upload_request_not_retried
    context s3_key path w cfg bucket id secret e :
  heap w !! config context = Some cfg ->
  s3_settings cfg = Return (bucket, id, secret) ->
  let guessed := guess_type (current_types w) path in
  let params :=
    {| Bucket := bucket; Key := s3_key; ContentType := guessed |} in
  generate_presigned_url (trace w) id secret params 30 = Raise e ->
  fst (upload_to_s3 context s3_key path w) = Raise e /\
  trace (snd (upload_to_s3 context s3_key path w)) =
    trace w ++ [EvPresign id secret params 30].
Proof.
  intros Hcfg Hs3. cbn zeta. intros Hurl.
  rewrite (upload_to_s3_run context s3_key path w cfg bucket id secret
             Hcfg Hs3). cbn zeta.
  rewrite Hurl. now split.
Qed.


(** ** The events of one job *)

Lemma adds_for_each_In {A} P (xs : list A) (body : A -> M unit) :
  (forall x, In x xs -> adds P (body x)) -> adds P (for_each xs body).
Proof.
  induction xs as [|x xs IH]; intros Hb; cbn.
  - apply adds_ret.
  - apply adds_bind; [apply Hb; now left|].
    intros _. apply IH. intros y Hy. apply Hb. now right.
Qed.

Lemma adds_upload_to_s3_file context dests dest path :
  In dest dests ->
  adds (uploads_file dests path) (upload_to_s3 context dest path).
Proof.
  intros Hin.
  unfold upload_to_s3, retry_async, call_upload_file,
    call_generate_presigned_url, obj_getitem, mimetypes_guess_type.
  frame_trace; cbn; auto.
Qed.

(** A job that has passed the validation and found its work directory puts
    these events on the trace, in this order: its validation; between one
    and [attempts] downloads, each of the source URL to the one local path,
    [work_dir] joined with the validated relative path; then only events of
    uploads, each a request for a signed URL, valid 30 seconds, for one of
    the job's destinations, or a PUT of that same local path.  No download
    follows an upload, and what is uploaded is the file that was
    downloaded. *)
Theorem beetmove_bit_events
    context source destinations w cfg deps rel_path work_dir :
  heap w !! config context = Some cfg ->
  subscript (task context) "dependencies" = Return deps ->
  validate_artifact_url
    (setdefault cfg "valid_artifact_task_ids" deps) source = Return rel_path ->
  dict_get cfg "work_dir" = Some (PStr work_dir) ->
  let abs_file_path := os_path_join work_dir rel_path in
  exists n ups,
    (1 <= n <= Nat.max 1 retry_attempts)%nat /\
    trace (snd (beetmove_bit context source destinations w)) =
      trace w ++
      EvValidate (setdefault cfg "valid_artifact_task_ids" deps) source ::
      repeat (EvDownload source abs_file_path) n ++ ups /\
    Forall (uploads_file destinations abs_file_path) ups.
Proof.
  intros Hcfg Hdeps Hval Hwd abs_file_path.
  pose proof (job_local_path_run context source w cfg deps Hcfg Hdeps) as Hrun.
  cbn zeta in Hrun. rewrite Hval in Hrun. unfold getitem in Hrun.
  rewrite Hwd in Hrun. cbn in Hrun. fold abs_file_path in Hrun.
  rewrite beetmove_bit_steps, (bind_returns _ _ _ _ _ Hrun).
  match type of Hrun with _ = (_, ?w1) => set (w1' := w1) in * end.
  destruct (retry_traced_run (EvDownload source abs_file_path)
              (fun history => download_file history source abs_file_path)
              (retry_attempts - 1) w1') as (n & Hn & Hdl).
  change (retry_loop _ _ w1') with (download context source abs_file_path w1')
    in Hdl.
  exists n. unfold bind at 1.
  destruct (download context source abs_file_path w1') as [[[]|e] w2];
    cbn [snd] in Hdl; subst w2.
  - destruct (adds_for_each_In (uploads_file destinations abs_file_path)
                destinations
                (fun dest => upload_to_s3 context dest abs_file_path)
                (fun dest Hin =>
                   adds_upload_to_s3_file context destinations dest
                     abs_file_path Hin)
                (set_trace
                   (trace w1' ++ repeat (EvDownload source abs_file_path) n)
                   w1')) as (ups & Ht & HP).
    exists ups. split; [lia|]. split; [|exact HP].
    rewrite Ht. cbn. now rewrite <- !app_assoc.
  - exists []. split; [lia|]. split; [|constructor].
    cbn. now rewrite app_nil_r, <- app_assoc.
Qed.

(** ** The order of the destinations *)

Lemma presigned_keys_app h1 h2 :
  presigned_keys (h1 ++ h2) = presigned_keys h1 ++ presigned_keys h2.
Proof. unfold presigned_keys. apply flat_map_app. Qed.

Lemma presigned_keys_none evs :
  Forall (fun ev => is_presign ev = false) evs -> presigned_keys evs = [].
Proof.
  unfold presigned_keys.
  induction 1 as [|ev evs Hev _ IH]; [reflexivity|].
  cbn. rewrite IH. now destruct ev.
Qed.

Lemma presigned_keys_uploads url hdrs path n :
  presigned_keys (repeat (EvUpload url hdrs path) n) = [].
Proof. induction n as [|n IH]; [reflexivity|exact IH]. Qed.

(** An upload requests the signed URL of its key, once, or raises before
    requesting any. *)
Lemma upload_to_s3_presigns context s3_key path w :
  presigned_keys (trace (snd (upload_to_s3 context s3_key path w))) =
    presigned_keys (trace w) ++ [s3_key] \/
  (is_raise (fst (upload_to_s3 context s3_key path w)) = true /\
   presigned_keys (trace (snd (upload_to_s3 context s3_key path w))) =
     presigned_keys (trace w)).
Proof.
  destruct (heap w !! config context) as [cfg|] eqn:Hcfg.
  - destruct (s3_settings cfg) as [[[bucket id] secret]|e] eqn:Hs3.
    + left.
      rewrite (upload_to_s3_run context s3_key path w cfg bucket id secret
                 Hcfg Hs3). cbn zeta.
      match goal with
      | |- context [generate_presigned_url ?h ?i ?k ?p ?x] =>
          destruct (generate_presigned_url h i k p x) as [url|e]
      end.
      * unfold retry_async.
        match goal with
        | |- context [retry_loop (call_upload_file ?u ?h ?p) ?n ?w1] =>
            destruct (retry_traced_run (EvUpload u h p)
                        (fun history => upload_file history u h p) n w1)
              as (k & _ & Hrun);
            change (traced_call _ _) with (call_upload_file u h p) in Hrun;
            rewrite Hrun
        end.
        cbn. rewrite !presigned_keys_app, presigned_keys_uploads. cbn.
        now rewrite app_nil_r.
      * cbn. now rewrite presigned_keys_app.
    + right.
      destruct (upload_to_s3_early context s3_key path w cfg e
                  Hcfg Hs3) as (Hr & Ht & _).
      rewrite Hr, Ht. now split.
  - right. unfold upload_to_s3, obj_getitem, read_dict, bind.
    rewrite Hcfg. now split.
Qed.

(** The destinations of a job are served in the order they are given, none
    is skipped and none is served twice: the keys for which the job requests
    a signed URL are the first [k] destinations, and all of them when the job
    returns. *)
Theorem beetmove_bit_destinations_in_order context source destinations w :
  exists k,
    (k <= length destinations)%nat /\
    presigned_keys (trace (snd (beetmove_bit context source destinations w))) =
      presigned_keys (trace w) ++ firstn k destinations /\
    (fst (beetmove_bit context source destinations w) = Return tt ->
     k = length destinations).
Proof.
  assert (Hloop : forall path dests w0,
    exists k,
      (k <= length dests)%nat /\
      presigned_keys
        (trace (snd (for_each dests
                       (fun dest => upload_to_s3 context dest path) w0))) =
        presigned_keys (trace w0) ++ firstn k dests /\
      (fst (for_each dests
              (fun dest => upload_to_s3 context dest path) w0) = Return tt ->
       k = length dests)).
  { intros path dests. induction dests as [|dest dests IH]; intros w0.
    - exists 0%nat. cbn. now rewrite app_nil_r.
    - cbn [for_each]. unfold bind at 1 2.
      destruct (upload_to_s3_presigns context dest path w0)
        as [Hpk|[Hraise Hpk]];
        destruct (upload_to_s3 context dest path w0) as [[[]|e] w1];
        cbn in *; try discriminate.
      + destruct (IH w1) as (k & Hk & Hkeys & Hret).
        exists (S k). split; [lia|]. split.
        * rewrite Hkeys, Hpk, <- app_assoc. reflexivity.
        * intros Hr. now rewrite (Hret Hr).
      + exists 1%nat. split; [lia|]. split; [exact Hpk|discriminate].
      + exists 0%nat. split; [lia|]. split; [|discriminate].
        now rewrite Hpk, app_nil_r. }
  rewrite beetmove_bit_steps. unfold bind.
  destruct (adds_job_local_path context source w) as (evs1 & Ht1 & HP1).
  destruct (job_local_path context source w) as [[path|e] w1]; cbn in Ht1.
  2:{ exists 0%nat. cbn. split; [lia|]. split; [|discriminate].
      rewrite Ht1, presigned_keys_app, (presigned_keys_none evs1).
      - reflexivity.
      - eapply Forall_impl; [exact HP1|]. intros ev Hev.
        apply orb_false_elim in Hev. tauto. }
  destruct (adds_download context source path w1) as (evs2 & Ht2 & HP2).
  assert (Hpre : presigned_keys (trace w1 ++ evs2) = presigned_keys (trace w)).
  { rewrite Ht1, !presigned_keys_app, (presigned_keys_none evs1),
      (presigned_keys_none evs2).
    - now rewrite !app_nil_r.
    - eapply Forall_impl; [exact HP2|]. now intros ev ->.
    - eapply Forall_impl; [exact HP1|]. intros ev Hev.
      apply orb_false_elim in Hev. tauto. }
  destruct (download context source path w1) as [[[]|e] w2]; cbn in Ht2.
  - destruct (Hloop path destinations w2) as (k & Hk & Hkeys & Hret).
    exists k. split; [exact Hk|]. split; [|exact Hret].
    rewrite Hkeys, Ht2, Hpre. reflexivity.
  - exists 0%nat. cbn. split; [lia|]. split; [|discriminate].
    now rewrite Ht2, Hpre, app_nil_r.
Qed.

(** ** The run, from the task to the jobs *)

(** Whatever stops [async_main] before the manifest is ready stops it before
    any job: when reading the task, validating it against the schema or
    building the manifest raises, [async_main] raises the same exception and
    the world is as it was: nothing was validated, downloaded or uploaded. *)
Theorem async_main_fatal_before_jobs context w cfg :
  heap w !! config context = Some cfg ->
  (forall e, get_task cfg = Raise e -> async_main context w = (Raise e, w)) /\
  (forall t e,
     get_task cfg = Return t ->
     validate_task_schema cfg t = Raise e ->
     async_main context w = (Raise e, w)) /\
  (forall t e,
     get_task cfg = Return t ->
     validate_task_schema cfg t = Return tt ->
     generate_candidates_manifest cfg t = Raise e ->
     async_main context w = (Raise e, w)).
Proof.
  intros Hcfg. unfold async_main, read_dict, lift, bind. cbn.
  rewrite Hcfg. repeat split.
  - intros e ->. reflexivity.
  - intros t e -> Hv. rewrite Hcfg, Hv. reflexivity.
  - intros t e -> Hv Hm. rewrite Hcfg, Hv, Hcfg, Hm. reflexivity.
Qed.

Lemma async_main_steps context w cfg t manifest :
  heap w !! config context = Some cfg ->
  get_task cfg = Return t ->
  validate_task_schema cfg t = Return tt ->
  generate_candidates_manifest cfg t = Return manifest ->
  async_main context w =
  beetmove_bits {| config := config context; task := t |} manifest w.
Proof.
  intros Hcfg Ht Hv Hm. unfold async_main, read_dict, lift, bind. cbn.
  now rewrite Hcfg, Ht, Hcfg, Hv, Hcfg, Hm.
Qed.

(** With the task read, valid and turned into a manifest, [async_main] is
    the run of [beetmove_bits] on that manifest, under a context that holds
    the task just read: the task the context held before plays no part, so
    two contexts that refer to the same configuration run alike. *)
Theorem async_main_runs_manifest context w cfg t manifest :
  heap w !! config context = Some cfg ->
  get_task cfg = Return t ->
  validate_task_schema cfg t = Return tt ->
  generate_candidates_manifest cfg t = Return manifest ->
  async_main context w =
    beetmove_bits {| config := config context; task := t |} manifest w /\
  (forall earlier,
     async_main {| config := config context; task := earlier |} w =
     async_main context w).
Proof.
  intros Hcfg Ht Hv Hm. split.
  - now apply (async_main_steps context w cfg t manifest).
  - intros earlier.
    rewrite (async_main_steps context w cfg t manifest) by assumption.
    now rewrite (async_main_steps {| config := config context; task := earlier |}
                   w cfg t manifest).
Qed.

(** ** Start-up *)

Lemma dict_set_fresh {V} (d : list (string * V)) k v :
  ~ In k (keys d) -> dict_set d k v = d ++ [(k, v)].
Proof.
  induction d as [|[k' v'] d IH]; cbn; intros Hk; [reflexivity|].
  destruct (String.eqb_spec k' k) as [->|_]; [tauto|].
  rewrite IH; [reflexivity|tauto].
Qed.

Lemma dict_update_fresh (acc d : dict) :
  NoDup (keys acc ++ keys d) -> dict_update acc d = acc ++ d.
Proof.
  unfold dict_update. revert acc.
  induction d as [|[k v] d IH]; intros acc Hnd; cbn.
  - now rewrite app_nil_r.
  - rewrite dict_set_fresh.
    + rewrite IH; [now rewrite <- app_assoc|].
      unfold keys in *. rewrite map_app. cbn. rewrite <- app_assoc. exact Hnd.
    + cbn in Hnd. apply NoDup_app in Hnd as (_ & Hdisj & _).
      intros Hin. apply list_elem_of_In in Hin.
      apply (Hdisj k Hin). now left.
Qed.

(** Called without a configuration path and with an argument vector of a
    length other than 2, the program ends with exit status 1 before it does
    anything: no configuration is loaded and the world is unchanged.  It ends
    through [usage], by [sys.exit(1)], when there is a program name to print,
    and by the uncaught [IndexError] of [sys.argv[0]] when the vector is
    empty. *)
Theorem script_usage_error argv w :
  length argv <> 2%nat ->
  exit_status (fst (script argv w)) = 1%Z /\
  snd (script argv w) = w /\
  (argv <> [] -> fst (script argv w) = Raise (SystemExit 1)) /\
  (argv = [] -> fst (script argv w) = Raise (OtherError "IndexError")).
Proof.
  intros Hlen.
  assert (Hrun : script argv w =
                 (match argv with
                  | [] => Raise (OtherError "IndexError")
                  | _ :: _ => Raise (SystemExit 1)
                  end, w)).
  { unfold script, main, setup_config, usage, raise, bind. cbn.
    destruct (Nat.eqb_spec (length argv) 2) as [Heq|_]; [contradiction|].
    now destruct argv. }
  rewrite Hrun. destruct argv as [|prog rest]; cbn; repeat split;
    congruence.
Qed.

Lemma setup_config_start argv config_path p loaded w :
  config_path = Some p \/
  (config_path = None /\ exists prog, argv = [prog; p]) ->
  load_json p = Return loaded ->
  NoDup (keys loaded) ->
  setup_config argv config_path w =
  (Return {| config := length (heap w); task := PNone |},
   set_heap (heap w ++ [loaded]) w).
Proof.
  intros Hpath Hload Hnd.
  assert (Hupd : dict_update [] loaded = loaded)
    by (now apply (dict_update_fresh [] loaded)).
  unfold setup_config, alloc_dict, read_dict, write_dict, usage, lift, ret,
    raise, bind.
  destruct Hpath as [->|[-> [prog ->]]]; cbn; rewrite Hload; cbn;
    rewrite lookup_new_object; cbn;
    rewrite insert_new_object, Hupd; reflexivity.
Qed.

(** [setup_config] puts what [load_json] returns for the path (the path
    given, or else the one command-line argument) in a new dict, leaves the
    objects that exist alone, and returns a context that refers to that dict
    and holds no task yet; reading a key of the configuration through the
    context gives what the loaded file has for it, and [KeyError] when it has
    nothing. *)
Theorem setup_config_loads argv config_path p loaded w :
  config_path = Some p \/
  (config_path = None /\ exists prog, argv = [prog; p]) ->
  load_json p = Return loaded ->
  NoDup (keys loaded) ->
  setup_config argv config_path w =
  (Return {| config := length (heap w); task := PNone |},
   set_heap (heap w ++ [loaded]) w) /\
  (forall k,
     obj_getitem (length (heap w)) k
       (snd (setup_config argv config_path w)) =
     (getitem loaded k, snd (setup_config argv config_path w))).
Proof.
  intros Hpath Hload Hnd.
  rewrite (setup_config_start argv config_path p loaded w Hpath Hload Hnd).
  split; [reflexivity|]. intros k. unfold obj_getitem, read_dict, lift, bind.
  cbn. now rewrite lookup_new_object.
Qed.

(** The configuration is loaded outside the [try] of [main]: an exception
    raised while loading it, from the path given or from the one
    command-line argument, is not turned into an exit code, not even a
    [ScriptWorkerTaskException]; it leaves [main] as it is, and the exit
    status is 1, that of an uncaught exception. *)
Theorem main_config_error_uncaught argv name config_path p e w :
  name = None \/ name = Some "__main__" ->
  config_path = Some p \/
  (config_path = None /\ exists prog, argv = [prog; p]) ->
  load_json p = Raise e ->
  is_Exception e = true ->
  fst (main argv name config_path w) = Raise e /\
  exit_status (fst (main argv name config_path w)) = 1%Z /\
  trace (snd (main argv name config_path w)) = trace w.
Proof.
  intros Hname Hpath Hload Hexc.
  assert (Hrun : main argv name config_path w =
                 (Raise e, set_heap (heap w ++ [[]]) w)).
  { unfold main, setup_config, alloc_dict, lift, ret, bind. cbv zeta.
    destruct Hname as [->| ->]; rewrite ?String.eqb_refl;
      destruct Hpath as [->|[-> [prog ->]]]; cbn;
      rewrite Hload; reflexivity. }
  rewrite Hrun. cbn. repeat split. now destruct e.
Qed.

(** [main] catches [ScriptWorkerTaskException] and nothing else: any other
    exception of the run, such as the network error of a download that was
    given up, leaves [main] uncaught, in the world the run left, and the exit
    status is 1. *)
Theorem main_other_error_uncaught argv name config_path w context w1 e w3 :
  name = None \/ name = Some "__main__" ->
  setup_config argv config_path w = (Return context, w1) ->
  async_main context (set_mime_db (Some mimetypes_default) w1) =
    (Raise e, w3) ->
  (forall exit_code, e <> ScriptWorkerTaskException exit_code) ->
  is_Exception e = true ->
  main argv name config_path w = (Raise e, w3) /\
  exit_status (fst (main argv name config_path w)) = 1%Z.
Proof.
  intros Hname Hsetup Hrun Hother Hexc.
  assert (Hmain : main argv name config_path w = (Raise e, w3)).
  { unfold main. cbv zeta.
    destruct Hname as [->| ->]; rewrite ?String.eqb_refl;
      unfold bind at 1; rewrite Hsetup; cbn;
      unfold try_except_task; rewrite Hrun;
      destruct e; try reflexivity; now destruct (Hother exit_code). }
  rewrite Hmain. split; [reflexivity|]. now destruct e.
Qed.

(** ** The whole run and the shared configuration *)

Lemma run_job_store context job w :
  exists copies,
    heap (snd (run_job context job w)) = heap w ++ copies /\
    (length copies <= 1)%nat.
Proof.
  unfold run_job. rewrite beetmove_bit_steps.
  assert (Hpath : exists copies,
            heap (snd (job_local_path context (fst job) w)) = heap w ++ copies /\
            (length copies <= 1)%nat).
  { destruct (heap w !! config context) as [cfg|] eqn:Hcfg.
    - destruct (subscript (task context) "dependencies") as [deps|e] eqn:Hdeps.
      + rewrite (job_local_path_run context (fst job) w cfg deps Hcfg Hdeps).
        cbn. eexists. split; [reflexivity|]. cbn. lia.
      + unfold job_local_path, deepcopy, read_dict, alloc_dict, lift, bind.
        cbn. rewrite Hcfg. cbn. rewrite Hdeps. cbn.
        exists [cfg]. split; [reflexivity|]. cbn. lia.
    - unfold job_local_path, deepcopy, read_dict, bind. cbn. rewrite Hcfg.
      cbn. exists []. rewrite app_nil_r. split; [reflexivity|]. cbn. lia. }
  destruct Hpath as (copies & Hh & Hlen). exists copies. split; [|exact Hlen].
  unfold bind at 1.
  destruct (job_local_path context (fst job) w) as [[path|e] w1]; cbn in *.
  - now rewrite keeps_heap_after_local_path.
  - exact Hh.
Qed.

(** A run changes no object that existed before it, whatever its outcome:
    the store after [beetmove_bits] is the store before it followed by the
    copies the jobs made, at most one per entry of the manifest, so the
    shared configuration is the same for every job and after the run. *)
Theorem beetmove_bits_store context manifest w :
  valid_manifest manifest ->
  exists copies,
    heap (snd (beetmove_bits context manifest w)) = heap w ++ copies /\
    (length copies <= length (manifest_entries manifest))%nat /\
    (forall (l : loc) d,
       heap w !! l = Some d ->
       heap (snd (beetmove_bits context manifest w)) !! l = Some d).
Proof.
  intros Hvalid. rewrite beetmove_bits_jobs by exact Hvalid.
  assert (Hjobs : forall jobs w0,
            exists copies,
              heap (snd (for_each jobs (run_job context) w0)) =
                heap w0 ++ copies /\
              (length copies <= length jobs)%nat).
  { induction jobs as [|job jobs IH]; intros w0; cbn [for_each].
    - exists []. cbn. now rewrite app_nil_r.
    - unfold bind at 1.
      destruct (run_job_store context job w0) as (c1 & Hh1 & Hl1).
      destruct (run_job context job w0) as [[[]|e] w1]; cbn in Hh1.
      + destruct (IH w1) as (c2 & Hh2 & Hl2).
        exists (c1 ++ c2). rewrite Hh2, Hh1, <- app_assoc.
        split; [reflexivity|]. rewrite length_app. cbn. lia.
      + exists c1. cbn. split; [exact Hh1|lia]. }
  destruct (Hjobs (copy_jobs manifest) w) as (copies & Hh & Hlen).
  exists copies. split; [exact Hh|]. split.
  - unfold copy_jobs in Hlen. now rewrite length_map in Hlen.
  - intros l d Hl. rewrite Hh. now apply lookup_app_l_Some.
Qed.

Lemma validations_app h1 h2 :
  validations (h1 ++ h2) = validations h1 ++ validations h2.
Proof. unfold validations. apply flat_map_app. Qed.

Lemma validations_none evs :
  Forall (fun ev => is_validate ev = false) evs -> validations evs = [].
Proof.
  unfold validations.
  induction 1 as [|ev evs Hev _ IH]; [reflexivity|].
  cbn. rewrite IH. now destruct ev.
Qed.

(** With the configuration in place and a task that names its dependencies,
    a job validates its source once, against the shared configuration with
    the default added, and leaves the shared configuration in place. *)
Lemma run_job_validations context job w cfg deps :
  heap w !! config context = Some cfg ->
  subscript (task context) "dependencies" = Return deps ->
  validations (trace (snd (run_job context job w))) =
    validations (trace w) ++
    [(setdefault cfg "valid_artifact_task_ids" deps, fst job)] /\
  heap (snd (run_job context job w)) !! config context = Some cfg.
Proof.
  intros Hcfg Hdeps. split.
  - unfold run_job. rewrite beetmove_bit_steps.
    pose proof (job_local_path_run context (fst job) w cfg deps Hcfg Hdeps)
      as Hrun. cbn zeta in Hrun.
    match type of Hrun with _ = (?res, ?w1) =>
      destruct res as [path|e] eqn:Hres end.
    + rewrite (bind_returns _ _ _ _ _ Hrun).
      match goal with |- context [snd (?m ?w1)] =>
        destruct (adds_after_local_path context (fst job) (snd job) path w1)
          as (rest & Ht & HP) end.
      rewrite Ht. cbn. rewrite !validations_app, (validations_none rest).
      * now rewrite app_nil_r.
      * eapply Forall_impl; [exact HP|]. intros ev [->|Hev]; [reflexivity|].
        destruct ev; cbn in *; try reflexivity; discriminate.
    + rewrite (bind_raises _ _ _ _ _ Hrun). cbn.
      now rewrite validations_app.
  - destruct (run_job_store context job w) as (copies & Hh & _).
    rewrite Hh. now apply lookup_app_l_Some.
Qed.

(** Every job of a run is validated against the same configuration, the
    shared one with the task's dependencies as default allowlist, and the
    jobs are validated in the order of the manifest, each once and none
    skipped: the validations of a run are those of the first [k] entries,
    and of all entries when the run returns. *)
Theorem beetmove_bits_validations context manifest w cfg deps :
  valid_manifest manifest ->
  heap w !! config context = Some cfg ->
  subscript (task context) "dependencies" = Return deps ->
  exists k,
    (k <= length (manifest_entries manifest))%nat /\
    validations (trace (snd (beetmove_bits context manifest w))) =
      validations (trace w) ++
      map (fun e =>
             (setdefault cfg "valid_artifact_task_ids" deps,
              os_path_join (artifact_base_url manifest) (artifact e)))
          (firstn k (manifest_entries manifest)) /\
    (fst (beetmove_bits context manifest w) = Return tt ->
     k = length (manifest_entries manifest)).
Proof.
  intros Hvalid Hcfg Hdeps. rewrite beetmove_bits_jobs by exact Hvalid.
  set (bc := setdefault cfg "valid_artifact_task_ids" deps).
  assert (Hjobs : forall jobs w0,
            heap w0 !! config context = Some cfg ->
            exists k,
              (k <= length jobs)%nat /\
              validations
                (trace (snd (for_each jobs (run_job context) w0))) =
                validations (trace w0) ++
                map (fun job => (bc, fst job)) (firstn k jobs) /\
              (fst (for_each jobs (run_job context) w0) = Return tt ->
               k = length jobs)).
  { induction jobs as [|job jobs IH]; intros w0 Hcfg0; cbn [for_each].
    - exists 0%nat. cbn. now rewrite app_nil_r.
    - unfold bind.
      destruct (run_job_validations context job w0 cfg deps Hcfg0 Hdeps)
        as (Hv & Hheap).
      destruct (run_job context job w0) as [[[]|e] w1]; cbn in Hv, Hheap.
      + destruct (IH w1 Hheap) as (k & Hk & Hvs & Hret).
        exists (S k). split; [cbn; lia|]. split.
        * rewrite Hvs, Hv. cbn. now rewrite <- app_assoc.
        * intros Hr. cbn. now rewrite (Hret Hr).
      + exists 1%nat. split; [cbn; lia|]. split; [|discriminate].
        cbn. rewrite firstn_O. exact Hv. }
  destruct (Hjobs (copy_jobs manifest) w Hcfg) as (k & Hk & Hvs & Hret).
  unfold copy_jobs in *. rewrite length_map in Hk, Hret.
  exists k. split; [exact Hk|]. split; [|exact Hret].
  rewrite Hvs, firstn_map, map_map. reflexivity.
Qed.

(** ** Relative values in the manifest *)

Lemma startswith_app (a b : string) : startswith a (a ++ b) = true.
Proof.
  unfold startswith. induction a as [|c a IH]; simpl.
  - now destruct b.
  - destruct (Ascii.ascii_dec c c); [exact IH|contradiction].
Qed.

Lemma os_path_join_relative_right (a b : string) :
  startswith "/" b = false -> startswith a (os_path_join a b) = true.
Proof.
  intros Hb. unfold os_path_join. rewrite Hb.
  destruct (String.eqb a "" || endswith_sep a)%bool; apply startswith_app.
Qed.

(** In the run of a manifest, the job started for an entry is the call of
    [beetmove_bit] with the joined source and the two joined destinations;
    when the [artifact] of the entry does not begin with ["/"], that source
    begins with [artifact_base_url]; when its [s3_key] does not begin with
    ["/"], the first destination begins with [s3_prefix_dated] and the
    second with [s3_prefix_latest]. *)
Theorem relative_entry_keeps_base context manifest before e after w :
  valid_manifest manifest ->
  manifest_entries manifest = before ++ e :: after ->
  let source := os_path_join (artifact_base_url manifest) (artifact e) in
  let dest_dated := os_path_join (s3_prefix_dated manifest) (s3_key e) in
  let dest_latest := os_path_join (s3_prefix_latest manifest) (s3_key e) in
  beetmove_bits context manifest w =
    (for_each (map (copy_job manifest) before)
       (fun job => beetmove_bit context (fst job) (snd job)) ;;;
     beetmove_bit context source [dest_dated; dest_latest] ;;;
     for_each (map (copy_job manifest) after)
       (fun job => beetmove_bit context (fst job) (snd job))) w /\
  (startswith "/" (artifact e) = false ->
   startswith (artifact_base_url manifest) source = true) /\
  (startswith "/" (s3_key e) = false ->
   startswith (s3_prefix_dated manifest) dest_dated = true /\
   startswith (s3_prefix_latest manifest) dest_latest = true).
Proof.
  intros Hvalid Hentries. cbn zeta. split; [|split].
  - now rewrite (beetmove_bits_at_entry context manifest before e after w
                   Hvalid Hentries).
  - apply os_path_join_relative_right.
  - intros Hrel. split; now apply os_path_join_relative_right.
Qed.

(** ** The program as a whole *)

(** Run with one argument, the path of a configuration that loads, and a
    task that is read, valid and turned into a manifest, the program is the
    run of the jobs of that manifest: on the loaded configuration, placed in
    a new dict; with the task just read; with the MIME registry of the
    platform; and with a [ScriptWorkerTaskException] of a job turned into
    [sys.exit] of its code. *)
Theorem script_runs_manifest prog p loaded t manifest w :
  load_json p = Return loaded ->
  NoDup (keys loaded) ->
  get_task loaded = Return t ->
  validate_task_schema loaded t = Return tt ->
  generate_candidates_manifest loaded t = Return manifest ->
  script [prog; p] w =
  try_except_task
    (beetmove_bits {| config := length (heap w); task := t |} manifest)
    (fun exit_code => sys_exit exit_code)
    {| trace := trace w;
       heap := heap w ++ [loaded];
       mime_db := Some mimetypes_default |}.
Proof.
  intros Hload Hnd Ht Hv Hm.
  pose proof (setup_config_start [prog; p] None p loaded w) as Hsetup.
  unfold script, main. cbv zeta. rewrite String.eqb_refl.
  unfold bind at 1. rewrite Hsetup; [|right; eauto|exact Hload|exact Hnd].
  cbn. unfold try_except_task.
  rewrite (async_main_steps
             {| config := length (heap w); task := PNone |}
             _ loaded t manifest); [reflexivity| |exact Ht|exact Hv|exact Hm].
  cbn. apply lookup_new_object.
Qed.


End Properties.

(** ** The properties at work *)

Import Demo.

Lemma C1_witness :
  fst (beetmove_bit (env := sunny) the_context foreign_exe
         [dated_key; latest_key] world0) =
    Raise (ScriptWorkerTaskException 3) /\
  trace (snd (beetmove_bit (env := sunny) the_context foreign_exe
                [dated_key; latest_key] world0)) =
    trace world0 ++
    [EvValidate
       (setdefault the_config "valid_artifact_task_ids" (PList [PStr "task123"]))
       foreign_exe].
Proof.
  apply (proj2 (C1_validation_precedes_download (env := sunny)
                  the_context foreign_exe [dated_key; latest_key] world0)
               the_config (PList [PStr "task123"]));
    reflexivity.
Defined.

Lemma C5_witness :
  beetmove_bit (env := offline) the_context app_exe [dated_key; latest_key]
    world0 =
    (Raise (OtherError "connection reset"),
     {| trace := EvValidate the_beet_config app_exe ::
                 repeat (EvDownload app_exe local_exe) 5;
        heap := [the_config; the_beet_config];
        mime_db := Some platform_types |}) /\
  exists evs,
    EvValidate the_beet_config app_exe ::
    repeat (EvDownload app_exe local_exe) 5 = trace world0 ++ evs /\
    Forall (fun ev => is_upload_event ev = false) evs.
Proof.
  apply (C5_failed_download_no_upload (env := offline)
           the_context app_exe [dated_key; latest_key] world0 local_exe
           {| trace := [EvValidate the_beet_config app_exe];
              heap := [the_config; the_beet_config];
              mime_db := Some platform_types |});
    reflexivity.
Defined.

Lemma C9_witness :
  heap (snd (beetmove_bit (env := sunny) the_context app_exe
               [dated_key; latest_key] world0)) =
  heap world0 ++
  [setdefault the_config "valid_artifact_task_ids" (PList [PStr "task123"])].
Proof.
  apply (proj2 (proj2 (C9_shared_config_unchanged (env := sunny)
                         the_context app_exe [dated_key; latest_key] world0)));
    reflexivity.
Defined.

(** The default reaches the copy only: the shared dict has no
    [valid_artifact_task_ids] after the job, the copy has. *)
Example shared_config_after_job :
  let w' := snd (beetmove_bit (env := sunny) the_context app_exe
                   [dated_key; latest_key] world0) in
  heap w' !! 0%nat = Some the_config /\
  dict_get the_config "valid_artifact_task_ids" = None /\
  heap w' !! 1%nat = Some the_beet_config.
Proof. repeat split. Qed.

(** Without the copy, that is with [setdefault] applied to the object the
    context refers to, the shared dict would change. *)
Example setdefault_on_shared_object :
  heap (snd (obj_setdefault 0 "valid_artifact_task_ids"
               (PList [PStr "task123"]) world0)) !! 0%nat =
  Some the_beet_config.
Proof. reflexivity. Qed.

(** C2 fails as stated. The bucket refuses the dated key and would accept the
    latest one: the five attempts on the dated key fail, the job raises, and
    nothing is sent for the latest key. *)
Lemma C2_latest_not_attempted :
  let run := beetmove_bit (env := dated_refused) the_context app_exe
               [dated_key; latest_key] world0 in
  fst run = Raise (OtherError "403 Forbidden") /\
  trace (snd run) =
    [EvValidate the_beet_config app_exe;
     EvDownload app_exe local_exe;
     EvPresign (PStr "AKIA") (PStr "secret")
       {| Bucket := PStr "bucket"; Key := dated_key;
          ContentType := (Some "application/x-msdownload", None) |} 30] ++
    repeat
      (EvUpload "https://s3/dated/2024/app.exe?sig=0"
         {| Content_Type := (Some "application/x-msdownload", None) |}
         local_exe) 5 /\
  existsb (targets latest_key) (trace (snd run)) = false /\
  fst (upload_to_s3 (env := dated_refused) the_context latest_key local_exe
         (snd run)) = Return tt.
Proof. repeat split. Qed.

Lemma C2_witness :
  beetmove_bit (env := dated_refused) the_context app_exe
    [dated_key; latest_key] world0 =
  (Raise (OtherError "403 Forbidden"),
   snd (beetmove_bit (env := dated_refused) the_context app_exe
          [dated_key; latest_key] world0)) /\
  exists evs,
    trace (snd (beetmove_bit (env := dated_refused) the_context app_exe
                  [dated_key; latest_key] world0)) = trace world0 ++ evs /\
    (dated_key <> latest_key ->
     Forall (fun ev => targets latest_key ev = false) evs).
Proof.
  apply (proj1 (C2_failed_dated_upload_ends_job (env := dated_refused)
                  the_context app_exe dated_key latest_key world0 local_exe
                  {| trace := [EvValidate the_beet_config app_exe];
                     heap := [the_config; the_beet_config];
                     mime_db := Some platform_types |}
                  {| trace := [EvValidate the_beet_config app_exe;
                               EvDownload app_exe local_exe];
                     heap := [the_config; the_beet_config];
                     mime_db := Some platform_types |}
                  eq_refl eq_refl));
    reflexivity.
Defined.

(** C3 fails as stated. One entry of ten fails its validation, the third: the
    run raises there, three jobs were attempted and seven were not, though each
    of the nine other jobs goes through when it is run. *)
Lemma C3_later_jobs_not_attempted :
  let run := beetmove_bits (env := sunny) the_context ten_jobs_manifest
               world0 in
  length (copy_jobs ten_jobs_manifest) = 10%nat /\
  fst run = Raise (ScriptWorkerTaskException 3) /\
  jobs_attempted (trace (snd run)) = 3%nat /\
  forallb (fun job =>
             String.eqb (fst job)
               "https://x/artifacts/task999/build/es/app.exe" ||
             negb (is_raise
                     (fst (run_job (env := sunny) the_context job world0))))
          (copy_jobs ten_jobs_manifest) = true.
Proof. repeat split; vm_compute; reflexivity. Qed.

Lemma valid_ten_jobs_manifest : valid_manifest ten_jobs_manifest.
Proof.
  split.
  - apply (bool_decide_unpack _). reflexivity.
  - cbn. repeat constructor; cbn; intros Hin; inversion Hin.
Qed.

Lemma C3_witness :
  beetmove_bits (env := sunny) the_context ten_jobs_manifest world0 =
  (Raise (ScriptWorkerTaskException 3),
   snd (beetmove_bits (env := sunny) the_context ten_jobs_manifest world0)).
Proof.
  apply (C3_first_failing_job_ends_run (env := sunny)
           the_context ten_jobs_manifest
           (firstn 2 (copy_jobs ten_jobs_manifest))
           ("https://x/artifacts/task999/build/es/app.exe",
            ["dated/2024/es/app.exe"; "latest/es/app.exe"])
           (skipn 3 (copy_jobs ten_jobs_manifest))
           world0
           (snd (for_each (firstn 2 (copy_jobs ten_jobs_manifest))
                   (run_job (env := sunny) the_context) world0)));
    [exact valid_ten_jobs_manifest | reflexivity..].
Defined.

Lemma valid_the_manifest : valid_manifest the_manifest.
Proof.
  split.
  - apply (bool_decide_unpack _). reflexivity.
  - cbn. repeat constructor; cbn; intros Hin; inversion Hin; subst;
      try discriminate.
    match goal with H : _ ∈ [] |- _ => inversion H end.
Qed.

Lemma C6_witness :
  (forall w,
     beetmove_bits (env := sunny) the_context the_manifest w =
     for_each
       [("https://x/artifacts/task123/build/app.exe",
         ["dated/2024/app.exe"; "latest/app.exe"]);
        ("https://x/artifacts/task123/build/app.exe.asc",
         ["dated/2024/app.exe.asc"; "latest/app.exe.asc"])]
       (fun job => beetmove_bit (env := sunny) the_context (fst job) (snd job))
       w) /\
  length (copy_jobs the_manifest) = 2%nat /\
  jobs_attempted
    (trace (snd (beetmove_bits (env := sunny) the_context the_manifest
                   world0))) = 2%nat.
Proof.
  destruct (C6_one_job_per_entry (env := sunny) the_context the_manifest
              valid_the_manifest) as (Hrun & Hlen & _ & _ & Hcount).
  split; [exact Hrun | split; [exact Hlen|]].
  apply (Hcount world0). reflexivity.
Defined.



Lemma valid_absolute_manifest : valid_manifest absolute_manifest.
Proof.
  split.
  - apply (bool_decide_unpack _). reflexivity.
  - cbn. repeat constructor; cbn; intros Hin; inversion Hin.
Qed.

Lemma C10_witness :
  beetmove_bits (env := sunny) the_context absolute_manifest world0 =
  (for_each []
     (fun job => beetmove_bit (env := sunny) the_context (fst job) (snd job)) ;;;
   beetmove_bit (env := sunny) the_context "/build/app.exe"
     ["/pub/app.exe"; "/pub/app.exe"] ;;;
   for_each []
     (fun job => beetmove_bit (env := sunny) the_context (fst job) (snd job)))
    world0.
Proof.
  apply (C10_absolute_entry_discards_base (env := sunny) the_context
           absolute_manifest []
           {| artifact := "/build/app.exe"; s3_key := "/pub/app.exe" |} []
           world0 valid_absolute_manifest eq_refl).
Defined.

(** The job of an entry with absolute values, as it is run. *)
Example absolute_entry_run w :
  beetmove_bits (env := sunny) the_context absolute_manifest w =
  beetmove_bit (env := sunny) the_context "/build/app.exe"
    ["/pub/app.exe"; "/pub/app.exe"] w.
Proof.
  rewrite beetmove_bits_jobs by exact valid_absolute_manifest.
  change (copy_jobs absolute_manifest)
    with [("/build/app.exe", ["/pub/app.exe"; "/pub/app.exe"])].
  apply bind_ret_unit.
Qed.

(** C8 fails as stated. A [ScriptWorkerTaskException] with exit code 3
    raised while the configuration is loaded, before the run, ends the
    program with status 1; and one with exit code 256 raised by the schema
    validation ends it with status 0. *)
Lemma C8_status_is_not_the_code :
  (fst (script (env := unreadable_config) ["beetmoverscript"; "config.json"]
          empty_world) = Raise (ScriptWorkerTaskException 3) /\
   exit_status
     (fst (script (env := unreadable_config)
             ["beetmoverscript"; "config.json"] empty_world)) = 1%Z) /\
  (fst (script (env := wide_exit_code) ["beetmoverscript"; "config.json"]
          empty_world) = Raise (SystemExit 256) /\
   exit_status
     (fst (script (env := wide_exit_code) ["beetmoverscript"; "config.json"]
             empty_world)) = 0%Z).
Proof. repeat split. Qed.

Lemma C8_witness :
  (script (env := sunny) ["beetmoverscript"; "config.json"] empty_world =
     (Return tt,
      snd (script (env := sunny) ["beetmoverscript"; "config.json"]
             empty_world)) /\
   exit_status
     (fst (script (env := sunny) ["beetmoverscript"; "config.json"]
             empty_world)) = 0%Z) /\
  (script (env := bad_task) ["beetmoverscript"; "config.json"] empty_world =
     (Raise (SystemExit 3),
      {| trace := []; heap := [the_config];
         mime_db := Some platform_types |}) /\
   exit_status
     (fst (script (env := bad_task) ["beetmoverscript"; "config.json"]
             empty_world)) = sys_exit_status 3 /\
   ((1 <= 3 <= 255)%Z ->
    exit_status
      (fst (script (env := bad_task) ["beetmoverscript"; "config.json"]
              empty_world)) = 3%Z /\
    exit_status
      (fst (script (env := bad_task) ["beetmoverscript"; "config.json"]
              empty_world)) <> 0%Z)) /\
  (script (env := unreadable_config) ["beetmoverscript"; "config.json"]
     empty_world =
     (Raise (ScriptWorkerTaskException 3), set_heap [[]] empty_world) /\
   exit_status
     (fst (script (env := unreadable_config)
             ["beetmoverscript"; "config.json"] empty_world)) = 1%Z).
Proof.
  split; [|split].
  - apply (proj1 (C8_exit_status (env := sunny)
                    ["beetmoverscript"; "config.json"] (Some "__main__") None
                    empty_world (or_intror eq_refl))
                 {| config := 0; task := PNone |}
                 {| trace := []; heap := [the_config]; mime_db := None |});
      reflexivity.
  - apply (proj1 (proj2 (C8_exit_status (env := bad_task)
                    ["beetmoverscript"; "config.json"] (Some "__main__") None
                    empty_world (or_intror eq_refl)))
                 {| config := 0; task := PNone |}
                 {| trace := []; heap := [the_config]; mime_db := None |});
      reflexivity.
  - apply (proj2 (proj2 (C8_exit_status (env := unreadable_config)
                    ["beetmoverscript"; "config.json"] (Some "__main__") None
                    empty_world (or_intror eq_refl))));
      reflexivity.
Defined.

(** ** C4 at work: a signature file *)

(** C4, at a signature file. [MIME_MAP] gives [.asc] the type [text/plain];
    the platform knows it as [application/pgp-signature].  After
    [setup_mimetypes] the upload of an [.asc] file sends the platform's
    answer, not the entry of [MIME_MAP], and sends it as the pair
    [guess_type] returns. *)
Theorem C4_asc_upload_ignores_MIME_MAP :
  let run :=
    (setup_mimetypes (env := sunny) ;;;
     upload_to_s3 (env := sunny) the_context "latest/app.exe.asc"
       "/work/build/app.exe.asc")
      {| trace := []; heap := [the_config]; mime_db := None |} in
  dict_get (MIME_MAP (Collaborators := sunny)) ".asc" = Some "text/plain" /\
  mime_db (snd run) = Some platform_types /\
  trace (snd run) =
    [EvPresign (PStr "AKIA") (PStr "secret")
       {| Bucket := PStr "bucket"; Key := "latest/app.exe.asc";
          ContentType := (Some "application/pgp-signature", None) |} 30;
     EvUpload "https://s3/latest/app.exe.asc?sig=0"
       {| Content_Type := (Some "application/pgp-signature", None) |}
       "/work/build/app.exe.asc"].
Proof. repeat split. Qed.

(** Had the iterator been advanced to its end, the registry would hold the
    entries of [MIME_MAP]. *)
Example setup_mimetypes_exhausted :
  mime_db
    (snd ((mimetypes_init (env := sunny) ;;;
           exhaust
             (py_map (fun ext_mimetype =>
                        mimetypes_add_type (env := sunny)
                          (snd ext_mimetype) (fst ext_mimetype))
                     (MIME_MAP (Collaborators := sunny))))
            empty_world)) =
  Some [(".exe", "application/x-msdownload"); (".asc", "text/plain");
        (".mar", "application/octet-stream")].
Proof. reflexivity. Qed.

(** ** More runs *)

Lemma beetmove_bit_allowlist_witness :
  exists beet_config rest,
    trace (snd (beetmove_bit (env := sunny) the_context foreign_exe
                  [dated_key; latest_key] (world_with own_allowlist_config))) =
      trace (world_with own_allowlist_config) ++
      EvValidate beet_config foreign_exe :: rest /\
    dict_get beet_config "valid_artifact_task_ids" =
      Some (PList [PStr "task999"]) /\
    (forall k, k <> "valid_artifact_task_ids" ->
               dict_get beet_config k = dict_get own_allowlist_config k).
Proof.
  apply (beetmove_bit_allowlist (env := sunny) the_context foreign_exe
           [dated_key; latest_key] (world_with own_allowlist_config)
           own_allowlist_config (PList [PStr "task123"]));
    reflexivity.
Defined.

Lemma beetmove_bit_missing_dependencies_witness :
  beetmove_bit (env := sunny) bare_context app_exe [dated_key; latest_key]
    (world_with own_allowlist_config) =
  (Raise (KeyError "dependencies"),
   {| trace := [];
      heap := [own_allowlist_config; own_allowlist_config];
      mime_db := Some platform_types |}).
Proof.
  apply (beetmove_bit_missing_dependencies (env := sunny) bare_context app_exe
           [dated_key; latest_key] (world_with own_allowlist_config)
           own_allowlist_config []);
    reflexivity.
Defined.

Lemma beetmove_bit_missing_work_dir_witness :
  fst (beetmove_bit (env := sunny) the_context app_exe [dated_key; latest_key]
         (world_with no_work_dir_config)) = Raise (KeyError "work_dir") /\
  trace (snd (beetmove_bit (env := sunny) the_context app_exe
                [dated_key; latest_key] (world_with no_work_dir_config))) =
    trace (world_with no_work_dir_config) ++
    [EvValidate
       (setdefault no_work_dir_config "valid_artifact_task_ids"
          (PList [PStr "task123"])) app_exe].
Proof.
  apply (beetmove_bit_missing_work_dir (env := sunny) the_context app_exe
           [dated_key; latest_key] (world_with no_work_dir_config)
           no_work_dir_config (PList [PStr "task123"]) "build/app.exe");
    reflexivity.
Defined.

Lemma download_succeeds_after_retries_witness :
  download (env := flaky_network) the_context app_exe local_exe world0 =
  (Return tt,
   set_trace (trace world0 ++ repeat (EvDownload app_exe local_exe) 3) world0).
Proof.
  apply (download_succeeds_after_retries (env := flaky_network) the_context
           app_exe local_exe 2 world0).
  - cbn. lia.
  - intros i Hi. exists (OtherError "timeout").
    destruct i as [|[|i]]; [now split | now split | lia].
  - reflexivity.
Defined.

Lemma download_gives_up_witness :
  exists e,
    download_file (Collaborators := offline)
      (trace world0 ++ repeat (EvDownload app_exe local_exe) (Nat.max 1 5 - 1))
      app_exe local_exe = Raise e /\
    download (env := offline) the_context app_exe local_exe world0 =
    (Raise e,
     set_trace
       (trace world0 ++ repeat (EvDownload app_exe local_exe) (Nat.max 1 5))
       world0).
Proof.
  apply (download_gives_up (env := offline) the_context app_exe local_exe
           world0).
  intros i _. exists (OtherError "connection reset"). now split.
Defined.

Lemma upload_to_s3_incomplete_config_witness :
  fst (upload_to_s3 (env := sunny) the_context dated_key local_exe
         (world_with no_credentials_config)) = Raise (KeyError "credentials") /\
  trace (snd (upload_to_s3 (env := sunny) the_context dated_key local_exe
                (world_with no_credentials_config))) =
    trace (world_with no_credentials_config).
Proof.
  destruct (upload_to_s3_incomplete_config (env := sunny) the_context
              dated_key local_exe (world_with no_credentials_config)
              no_credentials_config eq_refl) as [_ Hs3].
  destruct (Hs3 [("bucket", PStr "bucket")] eq_refl) as [_ Hbucket].
  destruct (Hbucket (PStr "bucket") eq_refl) as [Hcreds _].
  exact (Hcreds eq_refl).
Defined.



Lemma upload_request_not_retried_witness :
  fst (upload_to_s3 (env := strict_client) the_context dated_key local_exe
         world0) = Raise TypeError /\
  trace (snd (upload_to_s3 (env := strict_client) the_context dated_key
                local_exe world0)) =
    trace world0 ++
    [EvPresign (PStr "AKIA") (PStr "secret")
       {| Bucket := PStr "bucket"; Key := dated_key;
          ContentType := (Some "application/x-msdownload", None) |} 30].
Proof.
  apply (upload_request_not_retried (env := strict_client) the_context
           dated_key local_exe world0 the_config
           (PStr "bucket") (PStr "AKIA") (PStr "secret") TypeError
           eq_refl eq_refl eq_refl).
Defined.

Lemma beetmove_bit_events_witness :
  exists n ups,
    (1 <= n <= Nat.max 1 5)%nat /\
    trace (snd (beetmove_bit (env := flaky_network) the_context app_exe
                  [dated_key; latest_key] world0)) =
      trace world0 ++
      EvValidate
        (setdefault the_config "valid_artifact_task_ids"
           (PList [PStr "task123"])) app_exe ::
      repeat (EvDownload app_exe (os_path_join "/work" "build/app.exe")) n ++
      ups /\
    Forall (uploads_file [dated_key; latest_key]
              (os_path_join "/work" "build/app.exe")) ups.
Proof.
  apply (beetmove_bit_events (env := flaky_network) the_context app_exe
           [dated_key; latest_key] world0 the_config (PList [PStr "task123"])
           "build/app.exe" "/work");
    reflexivity.
Defined.

Lemma async_main_fatal_before_jobs_witness :
  async_main (env := bad_task) the_context world0 =
  (Raise (ScriptWorkerTaskException 3), world0).
Proof.
  destruct (async_main_fatal_before_jobs (env := bad_task) the_context world0
              the_config eq_refl) as (_ & Hschema & _).
  apply (Hschema the_task); reflexivity.
Defined.

Lemma async_main_runs_manifest_witness :
  async_main (env := sunny) bare_context world0 =
    beetmove_bits (env := sunny) {| config := 0; task := the_task |}
      the_manifest world0 /\
  (forall earlier,
     async_main (env := sunny) {| config := 0; task := earlier |} world0 =
     async_main (env := sunny) bare_context world0).
Proof.
  apply (async_main_runs_manifest (env := sunny) bare_context world0
           the_config the_task the_manifest);
    reflexivity.
Defined.

Lemma script_usage_error_witness :
  exit_status (fst (script (env := sunny) ["beetmoverscript"] empty_world)) =
    1%Z /\
  snd (script (env := sunny) ["beetmoverscript"] empty_world) = empty_world /\
  (["beetmoverscript"] <> [] ->
   fst (script (env := sunny) ["beetmoverscript"] empty_world) =
   Raise (SystemExit 1)) /\
  (["beetmoverscript"] = [] ->
   fst (script (env := sunny) ["beetmoverscript"] empty_world) =
   Raise (OtherError "IndexError")).
Proof.
  apply (script_usage_error (env := sunny) ["beetmoverscript"] empty_world).
  cbn. lia.
Defined.

(** With no argument vector at all, not even a program name. *)
Example script_without_argv :
  script (env := sunny) [] empty_world =
    (Raise (OtherError "IndexError"), empty_world) /\
  exit_status (fst (script (env := sunny) [] empty_world)) = 1%Z.
Proof. now split. Qed.

Lemma NoDup_the_config : NoDup (keys the_config).
Proof. apply (bool_decide_unpack _). reflexivity. Qed.

Lemma setup_config_loads_witness :
  setup_config (env := sunny) ["beetmoverscript"; "config.json"] None
    empty_world =
  (Return {| config := 0; task := PNone |},
   set_heap [the_config] empty_world) /\
  (forall k,
     obj_getitem 0 k
       (snd (setup_config (env := sunny) ["beetmoverscript"; "config.json"]
               None empty_world)) =
     (getitem the_config k,
      snd (setup_config (env := sunny) ["beetmoverscript"; "config.json"]
             None empty_world))).
Proof.
  apply (setup_config_loads (env := sunny) ["beetmoverscript"; "config.json"]
           None "config.json" the_config empty_world).
  - right. split; [reflexivity|]. now exists "beetmoverscript".
  - reflexivity.
  - exact NoDup_the_config.
Defined.

Lemma main_config_error_uncaught_witness :
  fst (script (env := unreadable_config) ["beetmoverscript"; "config.json"]
         empty_world) = Raise (ScriptWorkerTaskException 3) /\
  exit_status
    (fst (script (env := unreadable_config) ["beetmoverscript"; "config.json"]
            empty_world)) = 1%Z /\
  trace (snd (script (env := unreadable_config)
                ["beetmoverscript"; "config.json"] empty_world)) =
    trace empty_world.
Proof.
  apply (main_config_error_uncaught (env := unreadable_config)
           ["beetmoverscript"; "config.json"] (Some "__main__") None
           "config.json" (ScriptWorkerTaskException 3) empty_world).
  - now right.
  - right. split; [reflexivity|]. now exists "beetmoverscript".
  - reflexivity.
  - reflexivity.
Defined.

Lemma main_other_error_uncaught_witness :
  main (env := offline) ["beetmoverscript"; "config.json"] (Some "__main__")
    None empty_world =
    (Raise (OtherError "connection reset"),
     snd (script (env := offline) ["beetmoverscript"; "config.json"]
            empty_world)) /\
  exit_status
    (fst (main (env := offline) ["beetmoverscript"; "config.json"]
            (Some "__main__") None empty_world)) = 1%Z.
Proof.
  apply (main_other_error_uncaught (env := offline)
           ["beetmoverscript"; "config.json"] (Some "__main__") None
           empty_world {| config := 0; task := PNone |}
           {| trace := []; heap := [the_config]; mime_db := None |});
    [now right | reflexivity | reflexivity | discriminate | reflexivity].
Defined.

Lemma beetmove_bits_store_witness :
  exists copies,
    heap (snd (beetmove_bits (env := sunny) the_context ten_jobs_manifest
                 world0)) = heap world0 ++ copies /\
    (length copies <= length (manifest_entries ten_jobs_manifest))%nat /\
    (forall (l : loc) d,
       heap world0 !! l = Some d ->
       heap (snd (beetmove_bits (env := sunny) the_context ten_jobs_manifest
                    world0)) !! l = Some d).
Proof.
  exact (beetmove_bits_store (env := sunny) the_context ten_jobs_manifest
           world0 valid_ten_jobs_manifest).
Defined.

Lemma beetmove_bits_validations_witness :
  exists k,
    (k <= length (manifest_entries the_manifest))%nat /\
    validations
      (trace (snd (beetmove_bits (env := sunny) the_context the_manifest
                     world0))) =
      validations (trace world0) ++
      map (fun e =>
             (setdefault the_config "valid_artifact_task_ids"
                (PList [PStr "task123"]),
              os_path_join (artifact_base_url the_manifest) (artifact e)))
          (firstn k (manifest_entries the_manifest)) /\
    (fst (beetmove_bits (env := sunny) the_context the_manifest world0) =
       Return tt ->
     k = length (manifest_entries the_manifest)).
Proof.
  apply (beetmove_bits_validations (env := sunny) the_context the_manifest
           world0 the_config (PList [PStr "task123"]) valid_the_manifest);
    reflexivity.
Defined.

Lemma relative_entry_keeps_base_witness :
  beetmove_bits (env := sunny) the_context the_manifest world0 =
    (for_each []
       (fun job =>
          beetmove_bit (env := sunny) the_context (fst job) (snd job)) ;;;
     beetmove_bit (env := sunny) the_context
       (os_path_join "https://x/artifacts/task123" "build/app.exe")
       [os_path_join "dated/2024" "app.exe"; os_path_join "latest" "app.exe"] ;;;
     for_each
       [("https://x/artifacts/task123/build/app.exe.asc",
         ["dated/2024/app.exe.asc"; "latest/app.exe.asc"])]
       (fun job =>
          beetmove_bit (env := sunny) the_context (fst job) (snd job)))
      world0 /\
  (startswith "/" "build/app.exe" = false ->
   startswith "https://x/artifacts/task123"
     (os_path_join "https://x/artifacts/task123" "build/app.exe") = true) /\
  (startswith "/" "app.exe" = false ->
   startswith "dated/2024" (os_path_join "dated/2024" "app.exe") = true /\
   startswith "latest" (os_path_join "latest" "app.exe") = true).
Proof.
  apply (relative_entry_keeps_base (env := sunny) the_context the_manifest []
           {| artifact := "build/app.exe"; s3_key := "app.exe" |}
           [{| artifact := "build/app.exe.asc"; s3_key := "app.exe.asc" |}]
           world0 valid_the_manifest eq_refl).
Defined.

Lemma script_runs_manifest_witness :
  script (env := sunny) ["beetmoverscript"; "config.json"] empty_world =
  try_except_task
    (beetmove_bits (env := sunny) {| config := 0; task := the_task |}
       the_manifest)
    (fun exit_code => sys_exit exit_code)
    {| trace := []; heap := [the_config]; mime_db := Some platform_types |}.
Proof.
  apply (script_runs_manifest (env := sunny) "beetmoverscript" "config.json"
           the_config the_task the_manifest empty_world);
    [reflexivity | exact NoDup_the_config | reflexivity..].
Defined.
